(** * Investing-Challenge-Leaderboard: the tabular extraction engine

    A shallow embedding of [src/lib/csv.ts] (parseCSV) and
    [src/lib/leaderboard.ts] (parseNumber, the label and header locators,
    the two section extractors and computePlayerStatsFromSheetCSV), with
    the properties of the specification stated over it.

    Data model.
    - A JavaScript string is a sequence of code units; it is modelled as
      a [string], one [ascii] per code unit, so the model covers the texts
      whose code units are below 256 (ASCII and Latin-1).
    - A JavaScript number is an IEEE 754 binary64 value; it is modelled
      as a [spec_float] at precision 53 and maximal exponent 1024, with
      the arithmetic of the Standard Library's [SpecFloat].
    - [Record<string, number>] is a [gmap string Z], written through
      [setColumn]: a plain object takes every header as a key but
      [__proto__].
    - [undefined] and [null] are the [None] of an option, or their own
      constructor where the source tells them apart. *)

From Stdlib Require Import ZArith List Ascii String Bool Lia.
From Stdlib Require Import Floats.SpecFloat.
From stdpp Require Import base option list strings gmap.

Local Open Scope Z_scope.

#[local] Set Warnings "-clear-no-such-hyp".

(** ** Numbers *)

Module Num.

Definition num : Type := spec_float.

Definition prec : Z := 53.
Definition emax : Z := 1024.

Definition add : num -> num -> num := SFadd prec emax.
Definition sub : num -> num -> num := SFsub prec emax.
Definition mul : num -> num -> num := SFmul prec emax.
Definition div : num -> num -> num := SFdiv prec emax.
Definition neg : num -> num := SFopp.
Definition ltb : num -> num -> bool := SFltb.

Definition zero : num := S754_zero false.
Definition NaN : num := S754_nan.

(** The number nearest to the integer [z] (exact below 2^53). *)
Definition ofZ (z : Z) : num := binary_normalize prec emax z 0 false.

(** The number nearest to [m * 10^e], ties to even: the value of a
    decimal literal with digits [m] and decimal exponent [e]. *)
Definition ofDecimal (sign : bool) (m : Z) (e : Z) : num :=
  match m with
  | Zpos p =>
      if 0 <=? e
      then binary_normalize prec emax ((if sign then -1 else 1) * (Zpos p * 10 ^ e)) 0 false
      else match 10 ^ (- e) with
           | Zpos q => SFdiv prec emax (S754_finite sign p 0) (S754_finite false q 0)
           | _ => NaN
           end
  | _ => S754_zero sign
  end.

(** [Number.isFinite] *)
Definition isFinite (x : num) : bool :=
  match x with
  | S754_zero _ | S754_finite _ _ _ => true
  | S754_infinity _ | S754_nan => false
  end.

(** ToBoolean on a number: false for +0, -0 and NaN. *)
Definition truthy (x : num) : bool :=
  match x with
  | S754_zero _ | S754_nan => false
  | _ => true
  end.

End Num.

Abbreviation num := Num.num.

(** ** Strings *)

Module Str.

(** WhiteSpace and LineTerminator code units below 256: TAB, LF, VT, FF,
    CR, SP and NBSP. These are what [trim] removes and what [Number]
    skips around a literal. *)
Definition isWhiteSpace (c : ascii) : bool :=
  match c with
  | "009" | "010" | "011" | "012" | "013" | " " | "160" => true
  | _ => false
  end%char.

(** LineTerminator code units below 256: what [.] does not match. *)
Definition isLineTerminator (c : ascii) : bool :=
  match c with
  | "010" | "013" => true
  | _ => false
  end%char.

Fixpoint trimStart (s : string) : string :=
  match s with
  | String c r => if isWhiteSpace c then trimStart r else s
  | EmptyString => EmptyString
  end.

Fixpoint trimEnd (s : string) : string :=
  match s with
  | EmptyString => EmptyString
  | String c r =>
      match trimEnd r with
      | EmptyString => if isWhiteSpace c then EmptyString else String c EmptyString
      | r' => String c r'
      end
  end.

(** [String.prototype.trim] *)
Definition trim (s : string) : string := trimEnd (trimStart s).

(** Simple case mapping of one code unit below 256: A-Z, and the
    Latin-1 capitals U+00C0..U+00DE without the multiplication sign. *)
Definition lowerChar (c : ascii) : ascii :=
  let n := nat_of_ascii c in
  if ((65 <=? n) && (n <=? 90))%nat then ascii_of_nat (n + 32)
  else if ((192 <=? n) && (n <=? 222) && negb (n =? 215))%nat then ascii_of_nat (n + 32)
  else c.

(** [String.prototype.toLowerCase] *)
Fixpoint toLowerCase (s : string) : string :=
  match s with
  | EmptyString => EmptyString
  | String c r => String (lowerChar c) (toLowerCase r)
  end.

Definition isEmpty (s : string) : bool :=
  match s with EmptyString => true | _ => false end.

(** [s.includes(sub)] *)
Fixpoint includes (s sub : string) : bool :=
  String.prefix sub s ||
  match s with
  | EmptyString => false
  | String _ r => includes r sub
  end.

(** [s.replace(/[,$]/g, "")] *)
Fixpoint removeCommaDollar (s : string) : string :=
  match s with
  | EmptyString => EmptyString
  | String c r =>
      if (Ascii.eqb c "," || Ascii.eqb c "$")%char
      then removeCommaDollar r
      else String c (removeCommaDollar r)
  end.

(** [s.replace(/^c/, "")] for a literal character [c] *)
Definition stripLeading (c : ascii) (s : string) : string :=
  match s with
  | String a r => if Ascii.eqb a c then r else s
  | EmptyString => EmptyString
  end.

(** [s.replace(/c$/, "")] for a literal character [c] *)
Fixpoint stripTrailing (c : ascii) (s : string) : string :=
  match s with
  | EmptyString => EmptyString
  | String a EmptyString => if Ascii.eqb a c then EmptyString else s
  | String a r => String a (stripTrailing c r)
  end.

(** Does [s] match [/^.*\)$/]: no line terminator, and a closing
    parenthesis last. *)
Fixpoint dotsThenClose (s : string) : bool :=
  match s with
  | EmptyString => false
  | String a EmptyString => Ascii.eqb a ")"%char
  | String a r => negb (isLineTerminator a) && dotsThenClose r
  end.

(** [/^\(.*\)$/.test(s)] *)
Definition parenWrapped (s : string) : bool :=
  match s with
  | String a r => Ascii.eqb a "("%char && dotsThenClose r
  | EmptyString => false
  end.

End Str.

(** ** The [Number] conversion of a string (ECMAScript StringToNumber)

    [Number(s)] skips white space around the literal; the empty literal
    is +0; a literal is a signed decimal literal (digits with an optional
    fraction and an optional exponent part, or [Infinity]) or an unsigned
    hexadecimal, octal or binary integer literal; anything else is NaN.
    The value is rounded to the nearest binary64, ties to even. *)

Module StrNum.

Definition digitOf (radix : Z) (c : ascii) : option Z :=
  let n := Z.of_nat (nat_of_ascii c) in
  let d :=
    if (48 <=? n) && (n <=? 57) then n - 48
    else if (97 <=? n) && (n <=? 102) then n - 87
    else if (65 <=? n) && (n <=? 70) then n - 55
    else 99 in
  if d <? radix then Some d else None.

(** Reads the longest run of digits of [s] in [radix]: the value of
    [acc] followed by the digits, how many were read, and the rest. *)
Fixpoint digits (radix : Z) (s : string) (acc : Z) (count : Z) : Z * Z * string :=
  match s with
  | String c r =>
      match digitOf radix c with
      | Some d => digits radix r (acc * radix + d) (count + 1)
      | None => (acc, count, s)
      end
  | EmptyString => (acc, count, s)
  end.

(** An unsigned integer literal in [radix] filling all of [s]. *)
Definition radixLiteral (radix : Z) (s : string) : num :=
  match digits radix s 0 0 with
  | (v, count, EmptyString) => if 0 <? count then Num.ofZ v else Num.NaN
  | _ => Num.NaN
  end.

(** The ExponentPart filling all of [s], if any: [e] or [E], a sign,
    decimal digits. *)
Definition exponentPart (s : string) : option Z :=
  match s with
  | EmptyString => Some 0
  | String c r =>
      if (Ascii.eqb c "e" || Ascii.eqb c "E")%char then
        let '(sign, r') :=
          match r with
          | String "-"%char r' => (true, r')
          | String "+"%char r' => (false, r')
          | _ => (false, r)
          end in
        match digits 10 r' 0 0 with
        | (v, count, EmptyString) =>
            if 0 <? count then Some (if sign then - v else v) else None
        | _ => None
        end
      else None
  end.

(** StrUnsignedDecimalLiteral, with the sign already read. *)
Definition unsignedDecimal (sign : bool) (s : string) : num :=
  if String.eqb s "Infinity" then S754_infinity sign
  else
    let '(ipart, icount, r1) := digits 10 s 0 0 in
    let '(mant, fcount, r2) :=
      match r1 with
      | String "."%char r => digits 10 r ipart 0
      | _ => (ipart, 0, r1)
      end in
    if 0 <? icount + fcount then
      match exponentPart r2 with
      | Some e => Num.ofDecimal sign mant (e - fcount)
      | None => Num.NaN
      end
    else Num.NaN.

Definition StringToNumber (str : string) : num :=
  match Str.trim str with
  | EmptyString => Num.zero
  | String "0"%char (String "x"%char r) | String "0"%char (String "X"%char r) => radixLiteral 16 r
  | String "0"%char (String "o"%char r) | String "0"%char (String "O"%char r) => radixLiteral 8 r
  | String "0"%char (String "b"%char r) | String "0"%char (String "B"%char r) => radixLiteral 2 r
  | String "-"%char r => unsignedDecimal true r
  | String "+"%char r => unsignedDecimal false r
  | s => unsignedDecimal false s
  end.

End StrNum.

(** ** parseNumber (leaderboard.ts) *)

(** The argument of [parseNumber]: [string | number | null | undefined]. *)
Inductive raw : Type :=
| RawNull
| RawUndefined
| RawNumber (n : num)
| RawString (s : string).

(** The chain of [replace] calls and the final [trim] that produce
    [cleaned] from the trimmed text. *)
Definition cleanNumberText (s : string) : string :=
  Str.trim
    (Str.stripTrailing "%"
       (Str.stripTrailing ")"
          (Str.stripLeading "("
             (Str.removeCommaDollar s)))).

Definition parseNumber (r : raw) : option num :=
  match r with
  | RawNull | RawUndefined => None
  | RawNumber n => if Num.isFinite n then Some n else None
  | RawString str =>
      let s := Str.trim str in
      if Str.isEmpty s then None
      else
        let neg := Str.parenWrapped s in
        let cleaned := cleanNumberText s in
        let n := StrNum.StringToNumber cleaned in
        if Num.isFinite n then Some (if neg then Num.neg n else n) else None
  end.

(** ** Grids and cell access *)

Abbreviation row := (list string).
Abbreviation grid := (list (list string)).

(** [rr[i]] on a row: [undefined] outside the row, also for [-1]. *)
Definition cellAt (rr : row) (i : Z) : option string :=
  if i <? 0 then None else nth_error rr (Z.to_nat i).

(** [rr[m[key]]]: the column comes from a header record, where a missing
    key reads as [undefined], and [rr[undefined]] is [undefined]. *)
Definition cellAtCol (rr : row) (col : option Z) : option string :=
  match col with
  | Some i => cellAt rr i
  | None => None
  end.

(** [g[r]] on the grid. *)
Definition cellAtRow (g : grid) (r : Z) : option row :=
  if r <? 0 then None else nth_error g (Z.to_nat r).

(** A cell read from a row, as an argument of [parseNumber]. *)
Definition rawOf (cell : option string) : raw :=
  match cell with
  | Some s => RawString s
  | None => RawUndefined
  end.

(** [normalize]: trimmed and lower-cased. *)
Definition normalize (s : string) : string :=
  Str.toLowerCase (Str.trim s).

Fixpoint indexOfFrom (i : Z) (rr : row) (x : string) : Z :=
  match rr with
  | [] => -1
  | y :: rest => if String.eqb y x then i else indexOfFrom (i + 1) rest x
  end.

(** [rr.indexOf(x)] *)
Definition indexOf (rr : row) (x : string) : Z := indexOfFrom 0 rr x.

Fixpoint findIndexFrom (i : Z) (p : string -> bool) (rr : row) : Z :=
  match rr with
  | [] => -1
  | y :: rest => if p y then i else findIndexFrom (i + 1) p rest
  end.

(** [rr.findIndex(p)] *)
Definition findIndex (p : string -> bool) (rr : row) : Z := findIndexFrom 0 p rr.

(** [x.includes("date") && x.includes("time")] *)
Definition isDateTime (x : string) : bool :=
  Str.includes x "date" && Str.includes x "time".

(** ** findCellAdjacentToLabel *)

(** The inner loop over the cells of one row: [Some res] when the loop
    returns [res], [None] when it runs to the end of the row. *)
Fixpoint scanRowForLabel (target : string) (rr : row) : option (option num) :=
  match rr with
  | [] => None
  | cell :: rest =>
      if String.eqb (normalize cell) target
      then Some (parseNumber (rawOf (head rest)))
      else scanRowForLabel target rest
  end.

Fixpoint scanGridForLabel (target : string) (g : grid) : option num :=
  match g with
  | [] => None
  | rr :: rest =>
      match scanRowForLabel target rr with
      | Some res => res
      | None => scanGridForLabel target rest
      end
  end.

Definition findCellAdjacentToLabel (g : grid) (label : string) : option num :=
  scanGridForLabel (normalize label) g.

(** ** findHeaderRow *)

(** [colIndexByHeader[header] = idx] on the plain object that the record
    is: the header becomes an own key of the record, except the header
    [__proto__], for which the assignment goes to the setter inherited
    from [Object.prototype]; that setter ignores a number, so the record
    is left as it is and [Object.keys] does not list the header. *)
Definition setColumn (header : string) (idx : Z) (colIndexByHeader : gmap string Z)
    : gmap string Z :=
  if String.eqb header "__proto__" then colIndexByHeader
  else <[header := idx]> colIndexByHeader.

(** The loop over the required headers on one normalized row, with its
    [break]s: the record of columns collected when the loop ends. *)
Fixpoint collectColumns (rr : row) (required : list string)
    (colIndexByHeader : gmap string Z) : gmap string Z :=
  match required with
  | [] => colIndexByHeader
  | header :: rest =>
      let idx := indexOf rr header in
      if idx =? -1 then
        if isDateTime header then
          let altIdx := findIndex isDateTime rr in
          if negb (altIdx =? -1)
          then collectColumns rr rest (setColumn header altIdx colIndexByHeader)
          else colIndexByHeader
        else colIndexByHeader
      else collectColumns rr rest (setColumn header idx colIndexByHeader)
  end.

Record HeaderRow : Type := mkHeaderRow {
  rowIndex : Z;
  colIndexByHeader : gmap string Z
}.

Fixpoint findHeaderRowFrom (r : Z) (g : grid) (required : list string) : option HeaderRow :=
  match g with
  | [] => None
  | rr :: rest =>
      let cols := collectColumns (map normalize rr) required ∅ in
      if (size cols =? length required)%nat
      then Some (mkHeaderRow r cols)
      else findHeaderRowFrom (r + 1) rest required
  end.

Definition findHeaderRow (g : grid) (requiredHeaders : list string) : option HeaderRow :=
  findHeaderRowFrom 0 g (map normalize requiredHeaders).

(** ** parseOpenPositions *)

Record Position : Type := mkPosition {
  quantity : num;
  openPrice : option num;
  currentPrice : option num;
  unrealizedGain : option num
}.

Definition openPositionHeaders : list string :=
  ["quantity"; "open price"; "current price"; "unrealized gain"].

(** [u ?? (qty && o !== null && cp !== null ? qty * (cp - o) : 0)] *)
Definition unrealizedOf (qty : num) (o cp u : option num) : num :=
  match u with
  | Some g => g
  | None =>
      match o, cp with
      | Some o', Some cp' =>
          if Num.truthy qty then Num.mul qty (Num.sub cp' o') else Num.zero
      | _, _ => Num.zero
      end
  end.

(** The loop over the rows below the header; [rows] are the rows from
    index [r] on. *)
Fixpoint openPositionsLoop (start r : Z) (rows : grid) (qCol oCol cCol uCol : option Z)
    (positions : list Position) (unrealizedTotal : num) : list Position * num :=
  match rows with
  | [] => (positions, unrealizedTotal)
  | rr :: rest =>
      let q := parseNumber (rawOf (cellAtCol rr qCol)) in
      let o := parseNumber (rawOf (cellAtCol rr oCol)) in
      let cp := parseNumber (rawOf (cellAtCol rr cCol)) in
      let u := parseNumber (rawOf (cellAtCol rr uCol)) in
      match q, o, cp, u with
      | None, None, None, None =>
          if start + 2 <? r then (positions, unrealizedTotal)
          else openPositionsLoop start (r + 1) rest qCol oCol cCol uCol positions unrealizedTotal
      | _, _, _, _ =>
          let qty := default Num.zero q in
          let unreal := unrealizedOf qty o cp u in
          openPositionsLoop start (r + 1) rest qCol oCol cCol uCol
            (positions ++ [mkPosition qty o cp (Some unreal)])
            (Num.add unrealizedTotal unreal)
      end
  end.

Definition parseOpenPositions (g : grid) : list Position * num :=
  match findHeaderRow g openPositionHeaders with
  | None => ([], Num.zero)
  | Some header =>
      let start := rowIndex header + 1 in
      let cols := colIndexByHeader header in
      openPositionsLoop start start (drop (Z.to_nat start) g)
        (cols !! "quantity") (cols !! "open price")
        (cols !! "current price") (cols !! "unrealized gain")
        [] Num.zero
  end.

(** ** parseJournalTotals *)

(** [trades] counts rows with [++]; an array has fewer than 2^32
    elements, far below 2^53, so the count is an exact integer. *)
Record JournalTotals : Type := mkJournalTotals {
  creditsTotal : num;
  debitsTotal : num;
  jTrades : Z;
  jLastActivity : option string
}.

Definition journalHeaders : list string :=
  ["action"; "date & time"; "total $ received"; "status";
   "action"; "date & time"; "total $ paid"].

Definition isSomeB {A : Type} (o : option A) : bool :=
  match o with Some _ => true | None => false end.

(** [acc += n] when [n] is a number, nothing when it is [null]. *)
Definition addIfSome (acc : num) (n : option num) : num :=
  match n with
  | Some x => Num.add acc x
  | None => acc
  end.

(** [normalize(cell) !== "" && normalize(cell) !== "0"] *)
Definition isActionCell (cell : string) : bool :=
  negb (String.eqb (normalize cell) "") && negb (String.eqb (normalize cell) "0").

(** [x.every((y) => y.trim() === "")] *)
Definition rowBlank (x : row) : bool :=
  forallb (fun y => String.eqb (Str.trim y) "") x.

Fixpoint indicesWhereFrom (i : Z) (p : string -> bool) (rr : row) : list Z :=
  match rr with
  | [] => []
  | v :: rest =>
      if p v then i :: indicesWhereFrom (i + 1) p rest
      else indicesWhereFrom (i + 1) p rest
  end.

(** [dateCols.length ? Math.max(...dateCols) : -1] *)
Definition maxOrMinusOne (l : list Z) : Z :=
  match l with
  | [] => -1
  | x :: rest => fold_left Z.max rest x
  end.

(** The loop of the primary path over the rows below the header; [rows]
    are the rows from index [r] on, so [grid.slice(r, r + 10)] is
    [take 10 rows]. *)
Fixpoint journalLoop (start r : Z) (rows : grid) (receivedCol paidCol dateCol : Z)
    (acc : JournalTotals) : JournalTotals :=
  match rows with
  | [] => acc
  | rr :: rest =>
      let rec := if 0 <=? receivedCol then parseNumber (rawOf (cellAt rr receivedCol)) else None in
      let paid := if 0 <=? paidCol then parseNumber (rawOf (cellAt rr paidCol)) else None in
      let anyAction := existsb isActionCell rr in
      let trades :=
        if anyAction && (isSomeB rec || isSomeB paid) then jTrades acc + 1 else jTrades acc in
      let lastActivity :=
        if 0 <=? dateCol then
          let dt := Str.trim (default "" (cellAt rr dateCol)) in
          if Str.isEmpty dt then jLastActivity acc else Some dt
        else jLastActivity acc in
      let acc' :=
        mkJournalTotals (addIfSome (creditsTotal acc) rec) (addIfSome (debitsTotal acc) paid)
          trades lastActivity in
      if negb (isSomeB rec) && negb (isSomeB paid) && (start + 20 <? r)
         && forallb rowBlank (take 10 rows)
      then acc'
      else journalLoop start (r + 1) rest receivedCol paidCol dateCol acc'
  end.

Definition journalStart : JournalTotals := mkJournalTotals Num.zero Num.zero 0 None.

(** The primary path: the body of [if (header) { ... }], for the header
    row at index [headerRow]. *)
Definition journalPrimary (g : grid) (headerRow : Z) : JournalTotals :=
  let rr := map normalize (default [] (cellAtRow g headerRow)) in
  let receivedCol := indexOf rr "total $ received" in
  let paidCol := indexOf rr "total $ paid" in
  let dateCol := maxOrMinusOne (indicesWhereFrom 0 isDateTime rr) in
  let start := headerRow + 1 in
  journalLoop start start (drop (Z.to_nat start) g) receivedCol paidCol dateCol journalStart.

(** The inner loop of the fallback path, over the rows below the first
    row that names a received or a paid column. *)
Fixpoint journalFallbackSum (rows : grid) (receivedCol paidCol : Z)
    (acc : JournalTotals) : JournalTotals :=
  match rows with
  | [] => acc
  | rr :: rest =>
      let credits :=
        if negb (receivedCol =? -1)
        then addIfSome (creditsTotal acc) (parseNumber (rawOf (cellAt rr receivedCol)))
        else creditsTotal acc in
      let debits :=
        if negb (paidCol =? -1)
        then addIfSome (debitsTotal acc) (parseNumber (rawOf (cellAt rr paidCol)))
        else debitsTotal acc in
      let cell :=
        match cellAt rr receivedCol with
        | Some s => s
        | None => default "" (cellAt rr paidCol)
        end in
      let trades := if Str.isEmpty (Str.trim cell) then jTrades acc else jTrades acc + 1 in
      journalFallbackSum rest receivedCol paidCol
        (mkJournalTotals credits debits trades (jLastActivity acc))
  end.

(** The outer loop of the fallback path, with its [break] after the first
    row found. *)
Fixpoint journalFallback (g : grid) : JournalTotals :=
  match g with
  | [] => journalStart
  | rr0 :: rest =>
      let rr := map normalize rr0 in
      let receivedCol := indexOf rr "total $ received" in
      let paidCol := indexOf rr "total $ paid" in
      if negb (receivedCol =? -1) || negb (paidCol =? -1)
      then journalFallbackSum rest receivedCol paidCol journalStart
      else journalFallback rest
  end.

Definition parseJournalTotals (g : grid) : JournalTotals :=
  match findHeaderRow g journalHeaders with
  | Some header => journalPrimary g (rowIndex header)
  | None => journalFallback g
  end.

(** ** computePlayerStatsFromSheetCSV *)

Record Details : Type := mkDetails {
  dCreditsTotal : num;
  dDebitsTotal : num
}.

Record PlayerStats : Type := mkPlayerStats {
  name : string;
  realizedPL : num;
  unrealizedPL : num;
  totalPL : num;
  returnPct : num;
  equity : num;
  trades : Z;
  lastActivity : option string;
  details : Details
}.

Record Args : Type := mkArgs {
  argName : string;
  csvText : string;
  initialCapital : num
}.

Definition defaultCapital : num := Num.ofZ 10000.

(** [Number.isFinite(c) && c > 0 ? c : 10000] *)
Definition effectiveCapital (c : num) : num :=
  if Num.isFinite c && Num.ltb Num.zero c then c else defaultCapital.

(** ** parseCSV (csv.ts) *)

Module Csv.

Definition dquote : ascii := "034"%char.
Definition comma : ascii := ","%char.
Definition LF : ascii := "010"%char.
Definition CR : ascii := "013"%char.

(** [cur += ch] *)
Definition snoc (cur : string) (ch : ascii) : string :=
  cur +:+ String ch EmptyString.

(** The scan over the characters from index [i] on, [text] being the
    characters from [i]; an [i++] inside the loop body is the recursive
    call on the text one character further. At the end of the input the
    last cell and the last row are pushed. *)
Fixpoint scan (text : string) (rows : grid) (rw : row) (cur : string)
    (inQuotes : bool) : grid :=
  match text with
  | EmptyString => rows ++ [rw ++ [cur]]
  | String ch rest =>
      if inQuotes then
        if Ascii.eqb ch dquote then
          match rest with
          | String next rest' =>
              if Ascii.eqb next dquote
              then scan rest' rows rw (snoc cur dquote) true
              else scan rest rows rw cur false
          | EmptyString => scan rest rows rw cur false
          end
        else scan rest rows rw (snoc cur ch) true
      else if Ascii.eqb ch dquote then scan rest rows rw cur true
      else if Ascii.eqb ch comma then scan rest rows (rw ++ [cur]) EmptyString false
      else if Ascii.eqb ch LF then scan rest (rows ++ [rw ++ [cur]]) [] EmptyString false
      else if Ascii.eqb ch CR then
        match rest with
        | String next rest' =>
            if Ascii.eqb next LF
            then scan rest' (rows ++ [rw ++ [cur]]) [] EmptyString false
            else scan rest (rows ++ [rw ++ [cur]]) [] EmptyString false
        | EmptyString => scan rest (rows ++ [rw ++ [cur]]) [] EmptyString false
        end
      else scan rest rows rw (snoc cur ch) false
  end.

(** [while (rows.length && rows[rows.length - 1].every(blank)) rows.pop()] *)
Fixpoint trimTrailingRows (rows : grid) : grid :=
  match rows with
  | [] => []
  | rw :: rest =>
      match trimTrailingRows rest with
      | [] => if rowBlank rw then [] else [rw]
      | rest' => rw :: rest'
      end
  end.

Definition parseCSV (text : string) : grid :=
  trimTrailingRows (scan text [] [] EmptyString false).

End Csv.

Definition computePlayerStatsFromSheetCSV (args : Args) : PlayerStats :=
  let g := Csv.parseCSV (csvText args) in
  let realizedFromLabel := findCellAdjacentToLabel g "Realized P/L:" in
  let '(positions, unrealizedTotal) := parseOpenPositions g in
  let journal := parseJournalTotals g in
  let realizedPL :=
    match realizedFromLabel with
    | Some v => v
    | None => Num.sub (creditsTotal journal) (debitsTotal journal)
    end in
  let unrealizedPL := unrealizedTotal in
  let totalPL := Num.add realizedPL unrealizedPL in
  let initial := effectiveCapital (initialCapital args) in
  let returnPct := Num.div totalPL initial in
  let equity := Num.add initial totalPL in
  mkPlayerStats (argName args) realizedPL unrealizedPL totalPL returnPct equity
    (jTrades journal) (jLastActivity journal)
    (mkDetails (creditsTotal journal) (debitsTotal journal)).

(** ** Texts used in the examples *)

Definition nl : string := String Csv.LF "".
Definition crlf : string := String Csv.CR (String Csv.LF "").
Definition dq : string := String Csv.dquote "".

(** [rows.map((r) => r.join(",")).join("\n")]: each row comma-joined,
    the rows joined by line feeds. *)
Definition renderRow (rw : row) : string := String.concat "," rw.
Definition renderGrid (g : grid) : string := String.concat nl (map renderRow g).

(** A journal whose one header row has both sections, with one row of
    activity below it. *)
Definition journalSheet : string :=
  "Action,Date & Time,Total $ Received,Status,Action,Date & Time,Total $ Paid" +:+ nl +:+
  "SELL,2024-01-01,1000,ok,BUY,2024-01-02,400".

(** An open-positions table with the two data rows of the specification. *)
Definition positionsSheet : string :=
  "Quantity,Open Price,Current Price,Unrealized Gain" +:+ nl +:+
  "10,5,7," +:+ nl +:+
  "-5,,,20".

(** * What the statements are about

    The predicates, the specification-side functions and the sample
    sheets that the properties below are stated with. *)

(** The distinct texts among the seven journal headers. *)
Definition journalKeys : list string :=
  ["action"; "date & time"; "total $ received"; "status"; "total $ paid"].

(** The text between the parentheses of an accounting negative, cleaned
    the way [parseNumber] cleans it: commas and dollar signs removed, one
    trailing percent sign removed, trimmed. *)
Definition innerNumberText (inner : string) : string :=
  Str.trim (Str.stripTrailing "%" (Str.removeCommaDollar inner)).

Fixpoint noLineTerminator (s : string) : bool :=
  match s with
  | EmptyString => true
  | String a r => negb (Str.isLineTerminator a) && noLineTerminator r
  end.

(** A character that the scan appends to the current cell outside quotes:
    no quote, no comma, no LF, no CR. *)
Definition plainChar (c : ascii) : bool :=
  negb (Ascii.eqb c Csv.dquote) && negb (Ascii.eqb c Csv.comma)
  && negb (Ascii.eqb c Csv.LF) && negb (Ascii.eqb c Csv.CR).

Fixpoint plainCell (s : string) : bool :=
  match s with
  | EmptyString => true
  | String c r => plainChar c && plainCell r
  end.

(** Every cell of the grid is without comma, quote, LF and CR. *)
Definition plainCells (g : grid) : bool := forallb (forallb plainCell) g.

(** Every row of the grid has at least one cell. *)
Definition noEmptyRow (g : grid) : bool :=
  forallb (fun rw : row => negb (Nat.eqb (length rw) 0)) g.

Definition realizedLabel : string := "Realized P/L:".

(** The cell matches the label: equal after trimming and lower-casing. *)
Definition isLabel (label cell : string) : bool :=
  String.eqb (normalize cell) (normalize label).

Definition noLabelInRow (label : string) (rr : row) : bool :=
  forallb (fun cell => negb (isLabel label cell)) rr.

Definition noLabelInGrid (label : string) (g : grid) : bool :=
  forallb (noLabelInRow label) g.

(** A sheet with the label in the second row, a note before it and the
    value after it. *)
Definition labelSheet : string :=
  "Summary,,," +:+ nl +:+
  "note,  REALIZED p/l: ," +:+ dq +:+ "$2,500" +:+ dq +:+ ",x" +:+ nl +:+
  journalSheet.

(** The row, once normalized, names all four columns of the table. *)
Definition hasOpenHeaders (rr : row) : bool :=
  let n := map normalize rr in
  negb (indexOf n "quantity" =? -1)
  && negb (indexOf n "open price" =? -1)
  && negb (indexOf n "current price" =? -1)
  && negb (indexOf n "unrealized gain" =? -1).

Definition noOpenHeaders (g : grid) : bool :=
  forallb (fun rr => negb (hasOpenHeaders rr)) g.

(** The four cells of a row that the extractor reads, normalised to
    numbers: quantity, open price, current price, unrealized gain; the
    columns are those of the header row [hdr]. *)
Definition positionCells (hdr rr : row) : option num * option num * option num * option num :=
  let n := map normalize hdr in
  (parseNumber (rawOf (cellAt rr (indexOf n "quantity"))),
   parseNumber (rawOf (cellAt rr (indexOf n "open price"))),
   parseNumber (rawOf (cellAt rr (indexOf n "current price"))),
   parseNumber (rawOf (cellAt rr (indexOf n "unrealized gain")))).

Definition allAbsent (cells : option num * option num * option num * option num) : bool :=
  match cells with
  | (None, None, None, None) => true
  | _ => false
  end.

(** What one data row contributes: the explicit gain when present, else
    quantity times (current price minus open price) when the quantity is
    a non-zero number and both prices are present, else 0. *)
Definition contribution (cells : option num * option num * option num * option num) : num :=
  let '(q, o, cp, u) := cells in
  match u with
  | Some gain => gain
  | None =>
      match q, o, cp with
      | Some qty, Some o', Some cp' =>
          if Num.truthy qty then Num.mul qty (Num.sub cp' o') else Num.zero
      | _, _, _ => Num.zero
      end
  end.

(** The contributions of the rows scanned below the header, [k] being
    the distance of the first row of [body] from the row below the
    header: an all-absent row is skipped while [k <= 2] and ends the scan
    after that. *)
Fixpoint contributions (hdr : row) (k : Z) (body : grid) : list num :=
  match body with
  | [] => []
  | rr :: rest =>
      let cells := positionCells hdr rr in
      if allAbsent cells then
        if 2 <? k then [] else contributions hdr (k + 1) rest
      else contribution cells :: contributions hdr (k + 1) rest
  end.

(** The running total: the contributions added in scan order to 0. *)
Definition sumFrom (total : num) (l : list num) : num := fold_left Num.add l total.

(** The contribution as the claim words it, without the test on the
    quantity. *)
Definition claimedContribution
    (cells : option num * option num * option num * option num) : num :=
  let '(q, o, cp, u) := cells in
  match u with
  | Some gain => gain
  | None =>
      match o, cp with
      | Some o', Some cp' => Num.mul (default Num.zero q) (Num.sub cp' o')
      | _, _ => Num.zero
      end
  end.

(** A position of quantity 0 whose price difference overflows. *)
Definition overflowSheet : string :=
  "Quantity,Open Price,Current Price,Unrealized Gain" +:+ nl +:+
  "0,-1e308,1e308,".

(** A sheet with a realized amount of 2500 beside its label and an
    open-positions table worth 100 * (7 - 5) + 100 = 300. *)
Definition scenarioSheet : string :=
  "Realized P/L:,2500" +:+ nl +:+
  "Quantity,Open Price,Current Price,Unrealized Gain" +:+ nl +:+
  "100,5,7," +:+ nl +:+
  ",,,100".

(** A table below a title row, with two all-absent rows before the data,
    a row of quantity 0, and a gap after the fourth row that ends the
    scan before the last row. *)
Definition sparseSheet : grid :=
  [["Open Positions"];
   ["Current Price"; "Quantity"; "Note"; "Unrealized Gain"; "Open Price"];
   [""; ""; "n/a"; ""; ""];
   [];
   ["7"; "10"; "x"; ""; "5"];
   ["9"; "0"; "y"; ""; "4"];
   [""; ""; ""; ""; ""];
   ["1"; "1"; "z"; "100"; "1"]].

(** * More of the code

    The conversion of Sheets API values to CSV text in route.ts, the
    settings of config.ts and the column sorting state of the page, and
    the predicates the further properties are stated with. *)

(** Every character of the string satisfies [p]. *)
Fixpoint allChars (p : ascii -> bool) (s : string) : bool :=
  match s with
  | EmptyString => true
  | String c r => p c && allChars p r
  end.

(** The string holds the character [c]. *)
Fixpoint hasChar (c : ascii) (s : string) : bool :=
  match s with
  | EmptyString => false
  | String a r => Ascii.eqb a c || hasChar c r
  end.

(** ** fetchSheetAsCsvViaSheetsApi: values to CSV (route.ts) *)

(** [s.replaceAll] of each quote character by two of them. *)
Fixpoint doubleQuotes (s : string) : string :=
  match s with
  | EmptyString => EmptyString
  | String c r =>
      if Ascii.eqb c Csv.dquote
      then String Csv.dquote (String Csv.dquote (doubleQuotes r))
      else String c (doubleQuotes r)
  end.

(** The cell includes a quote character, a comma or a line feed. *)
Definition needsQuoting (s : string) : bool :=
  Str.includes s dq || Str.includes s "," || Str.includes s nl.

(** The callback of [row.map]: a cell that needs quoting is wrapped in
    quotes with its quotes doubled, any other cell is kept. *)
Definition csvCell (s : string) : string :=
  if needsQuoting s then dq +:+ doubleQuotes s +:+ dq else s.

(** [values.map((row) => row.map(...).join(",")).join("\n")] *)
Definition valuesToCsv (values : grid) : string :=
  String.concat nl (map (fun rw : row => String.concat "," (map csvCell rw)) values).

(** A cell that [valuesToCsv] writes so that [parseCSV] reads it back: a
    carriage return is only safe inside quotes, and the cell is quoted
    only for a quote, a comma or a line feed. *)
Definition safeCell (s : string) : bool :=
  needsQuoting s || negb (hasChar Csv.CR s).

Definition safeCells (g : grid) : bool := forallb (forallb safeCell) g.

(** Outside quotes a CR LF pair, a lone CR and a lone LF are each
    replaced by one LF. *)
Fixpoint toLF (s : string) : string :=
  match s with
  | EmptyString => EmptyString
  | String c r =>
      if Ascii.eqb c Csv.CR then
        String Csv.LF
          match r with
          | String c2 r2 => if Ascii.eqb c2 Csv.LF then toLF r2 else toLF r
          | EmptyString => EmptyString
          end
      else String c (toLF r)
  end.

(** White space or a comma: what a text of blank cells is made of. *)
Definition blankChar (c : ascii) : bool :=
  Str.isWhiteSpace c || Ascii.eqb c Csv.comma.

(** [y.trim() === ""] *)
Definition blankCell (s : string) : bool := String.eqb (Str.trim s) "".

(** The text that follows a rendered cell does not begin with a quote:
    it is empty or begins with a comma or a line feed. *)
Definition noLeadingQuote (rest : string) : bool :=
  match rest with
  | EmptyString => true
  | String c _ => negb (Ascii.eqb c Csv.dquote)
  end.

(** One line of the CSV text: the cells of a row, rendered and joined. *)
Definition csvRow (rw : row) : string := String.concat "," (map csvCell rw).

(** ** What findHeaderRow looks for *)

(** The column recorded for a header on a normalized row: the first cell
    equal to it; failing that, for a header with both date and time, the
    first cell with both; -1 when there is none. *)
Definition resolveColumn (rr : row) (header : string) : Z :=
  let idx := indexOf rr header in
  if idx =? -1
  then (if isDateTime header then findIndex isDateTime rr else -1)
  else idx.

(** Every required header has a column on the normalized row. *)
Definition resolvesAll (rr : row) (required : list string) : bool :=
  forallb (fun header => negb (resolveColumn rr header =? -1)) required.

(** No row of the grid, once normalized, has a column for every header. *)
Definition noHeaderRow (required : list string) (g : grid) : bool :=
  forallb (fun rr : row => negb (resolvesAll (map normalize rr) required)) g.

(** The list holds the header that the record cannot have as a key. *)
Definition hasPrototypeKey (required : list string) : bool :=
  existsb (String.eqb "__proto__") required.

(** Some text occurs twice in the list. *)
Fixpoint hasDuplicate (l : list string) : bool :=
  match l with
  | [] => false
  | x :: rest => existsb (String.eqb x) rest || hasDuplicate rest
  end.

(** ** What the extractors and the aggregator compute *)

(** The gain recorded in a position. *)
Definition gainOf (p : Position) : num := default Num.zero (unrealizedGain p).

(** A position as the extractor builds it: a finite quantity, finite
    prices where there are prices, and a gain. *)
Definition wellFormedPosition (p : Position) : bool :=
  Num.isFinite (quantity p)
  && match openPrice p with Some o => Num.isFinite o | None => true end
  && match currentPrice p with Some c => Num.isFinite c | None => true end
  && isSomeB (unrealizedGain p).

(** The row, once normalized, names the received or the paid column. *)
Definition hasJournalHeader (rr : row) : bool :=
  let n := map normalize rr in
  negb (indexOf n "total $ received" =? -1) || negb (indexOf n "total $ paid" =? -1).

Definition noJournalHeader (g : grid) : bool :=
  forallb (fun rr => negb (hasJournalHeader rr)) g.

Definition receivedColumn (hdr : row) : Z := indexOf (map normalize hdr) "total $ received".
Definition paidColumn (hdr : row) : Z := indexOf (map normalize hdr) "total $ paid".

(** The numbers found in one column of the rows, top to bottom; a cell
    that is missing or does not normalize to a number gives none. *)
Fixpoint columnNumbers (col : Z) (body : grid) : list num :=
  match body with
  | [] => []
  | rr :: rest =>
      match parseNumber (rawOf (cellAt rr col)) with
      | Some n => n :: columnNumbers col rest
      | None => columnNumbers col rest
      end
  end.

(** The fallback path counts a row as a trade when its received cell, or
    its paid cell where the row has no received cell, has text. *)
Definition countsAsTrade (receivedCol paidCol : Z) (rr : row) : bool :=
  match cellAt rr receivedCol with
  | Some s => negb (blankCell s)
  | None => negb (blankCell (default "" (cellAt rr paidCol)))
  end.

Definition countTrades (receivedCol paidCol : Z) (body : grid) : Z :=
  Z.of_nat (length (List.filter (countsAsTrade receivedCol paidCol) body)).

(** ** CONFIG (config.ts) *)

(** [s.split(",")] for a one-character separator: the pieces between
    the separators, one piece for a text without separator, the empty
    text included. *)
Fixpoint splitFrom (sep : ascii) (s : string) (cur : string) : list string :=
  match s with
  | EmptyString => [cur]
  | String c r =>
      if Ascii.eqb c sep then cur :: splitFrom sep r EmptyString
      else splitFrom sep r (Csv.snoc cur c)
  end.

Definition split (sep : ascii) (s : string) : list string := splitFrom sep s EmptyString.

Definition defaultTabs : string := "Tejas,Miguel,William,Lucas,Gabe,Person 1,Person 2".

(** [(process.env.SHEET_TABS ?? defaultTabs).split(",").map((s) => s.trim()).filter(Boolean)],
    the variable being [None] when it is not set. *)
Definition configTabs (env : option string) : list string :=
  List.filter (fun s => negb (Str.isEmpty s))
    (map Str.trim (split "," (default defaultTabs env))).

(** [Number(process.env.INITIAL_CAPITAL ?? "10000")] *)
Definition configInitialCapital (env : option string) : num :=
  StrNum.StringToNumber (default "10000" env).

(** ** The sorting state of the page (page.tsx) *)

Inductive SortKey : Type :=
| KeyReturnPct | KeyTotalPL | KeyEquity | KeyRealizedPL | KeyUnrealizedPL | KeyTrades | KeyName.

Inductive SortDir : Type := Asc | Desc.

Definition sortKeyEqb (a b : SortKey) : bool :=
  match a, b with
  | KeyReturnPct, KeyReturnPct | KeyTotalPL, KeyTotalPL | KeyEquity, KeyEquity
  | KeyRealizedPL, KeyRealizedPL | KeyUnrealizedPL, KeyUnrealizedPL
  | KeyTrades, KeyTrades | KeyName, KeyName => true
  | _, _ => false
  end.

Record SortState : Type := mkSortState {
  sortKey : SortKey;
  sortDir : SortDir
}.

(** The state the page starts in. *)
Definition initialSortState : SortState := mkSortState KeyReturnPct Desc.

(** [toggleSort(key)]: the state after a click on a column header. *)
Definition toggleSort (st : SortState) (key : SortKey) : SortState :=
  if sortKeyEqb (sortKey st) key
  then mkSortState (sortKey st) (match sortDir st with Desc => Asc | Asc => Desc end)
  else mkSortState key (match key with KeyName => Asc | _ => Desc end).

(** ** Texts that are no numbers *)

(** Some character of the string satisfies [p]. *)
Fixpoint existsChar (p : ascii -> bool) (s : string) : bool :=
  match s with
  | EmptyString => false
  | String c r => p c || existsChar p r
  end.







(** A tab name as the leaderboard needs it: with text, without white
    space around it, without comma. *)
Definition cleanTab (t : string) : bool :=
  negb (Str.isEmpty t) && String.eqb (Str.trim t) t && negb (hasChar "," t).

(** Empty, or beginning with a character that is not white space. *)
Definition startsClean (s : string) : bool :=
  match s with
  | EmptyString => true
  | String c _ => negb (Str.isWhiteSpace c)
  end.

(** * Properties *)

(** ** The number conversion on known binary64 values *)

(** 0.1 is 0x1.999999999999ap-4; 2^53 + 1 is a tie and rounds to the even
    2^53; the largest finite number is (2^53 - 1) * 2^971 and the next
    decimal above its rounding interval is infinite; 5e-324 is the
    smallest subnormal, and a text below half of it is +0. *)
Lemma StringToNumber_samples :
  StrNum.StringToNumber "0.1" = S754_finite false 7205759403792794 (-56)
  /\ StrNum.StringToNumber " 1234.50 " = S754_finite false (2469 * 2 ^ 41) (-42)
  /\ StrNum.StringToNumber "9007199254740993" = S754_finite false (2 ^ 52) 1
  /\ StrNum.StringToNumber "1.7976931348623157e308" = S754_finite false (2 ^ 53 - 1) 971
  /\ StrNum.StringToNumber "1.7976931348623159e308" = S754_infinity false
  /\ StrNum.StringToNumber "-5e-324" = S754_finite true 1 (-1074)
  /\ StrNum.StringToNumber "2e-324" = S754_zero false
  /\ StrNum.StringToNumber "0x1F" = Num.ofZ 31
  /\ StrNum.StringToNumber "-Infinity" = S754_infinity true
  /\ StrNum.StringToNumber "" = Num.zero
  /\ StrNum.StringToNumber "1,5" = Num.NaN
  /\ StrNum.StringToNumber "-0x1F" = Num.NaN.
Proof. repeat split; vm_compute; reflexivity. Qed.

(** A header cell with more text around date and time still counts as a
    date-and-time column. *)
Lemma isDateTime_sample :
  isDateTime (normalize "  Date & Time Opened ") = true
  /\ isDateTime (normalize "Date") = false.
Proof. split; vm_compute; reflexivity. Qed.

(** ** The header record of the journal never fills up *)

Section HeaderRecord.

Implicit Types (rr : row) (required : list string) (m : gmap string Z).

Lemma setColumn_dom header idx m :
  dom (setColumn header idx m) ⊆ {[header]} ∪ dom m.
Proof.
  unfold setColumn. destruct (String.eqb header "__proto__"); [set_solver|].
  rewrite dom_insert_L. set_solver.
Qed.

Lemma collectColumns_dom rr required m :
  dom (collectColumns rr required m) ⊆ dom m ∪ list_to_set required.
Proof.
  revert m. induction required as [|header rest IH]; intros m; simpl.
  - set_solver.
  - destruct (indexOf rr header =? -1).
    + destruct (isDateTime header); [|set_solver].
      destruct (negb _); [|set_solver].
      etransitivity; [apply IH|].
      pose proof (setColumn_dom header (findIndex isDateTime rr) m). set_solver.
    + etransitivity; [apply IH|].
      pose proof (setColumn_dom header (indexOf rr header) m). set_solver.
Qed.

Lemma collectColumns_size rr required :
  (size (collectColumns rr required ∅) <= size (list_to_set (C:=gset string) required))%nat.
Proof.
  rewrite <- size_dom. apply subseteq_size.
  etransitivity; [apply collectColumns_dom|]. rewrite dom_empty_L. set_solver.
Qed.

Lemma journalKeys_NoDup : NoDup journalKeys.
Proof. unfold journalKeys. repeat (constructor; [set_solver|]). constructor. Qed.

Lemma journalHeaders_keys :
  list_to_set (C:=gset string) (map normalize journalHeaders) = list_to_set journalKeys.
Proof.
  replace (map normalize journalHeaders) with
    ["action"; "date & time"; "total $ received"; "status";
     "action"; "date & time"; "total $ paid"] by (vm_compute; reflexivity).
  unfold journalKeys. set_solver.
Qed.

Lemma journal_record_size rr :
  (size (collectColumns rr (map normalize journalHeaders) ∅) <= 5)%nat.
Proof.
  etransitivity; [apply collectColumns_size|].
  rewrite journalHeaders_keys, (size_list_to_set _ journalKeys_NoDup). reflexivity.
Qed.

Lemma findHeaderRowFrom_journal r (g : grid) :
  findHeaderRowFrom r g (map normalize journalHeaders) = None.
Proof.
  revert r. induction g as [|rr rest IH]; intros r; [reflexivity|].
  cbn [findHeaderRowFrom].
  pose proof (journal_record_size (map normalize rr)) as Hsz.
  destruct (Nat.eqb_spec (size (collectColumns (map normalize rr) (map normalize journalHeaders) ∅))
              (length (map normalize journalHeaders))) as [Heq|_].
  - rewrite Heq in Hsz. simpl in Hsz. lia.
  - apply IH.
Qed.

Lemma findHeaderRow_journal (g : grid) : findHeaderRow g journalHeaders = None.
Proof. apply findHeaderRowFrom_journal. Qed.

Lemma parseJournalTotals_fallback (g : grid) : parseJournalTotals g = journalFallback g.
Proof. unfold parseJournalTotals. now rewrite findHeaderRow_journal. Qed.

End HeaderRecord.

Lemma journalFallbackSum_lastActivity rows receivedCol paidCol acc :
  jLastActivity (journalFallbackSum rows receivedCol paidCol acc) = jLastActivity acc.
Proof.
  revert acc. induction rows as [|rr rest IH]; intros acc; [reflexivity|].
  cbn [journalFallbackSum]. now rewrite IH.
Qed.

Lemma journalFallback_lastActivity (g : grid) : jLastActivity (journalFallback g) = None.
Proof.
  induction g as [|rr rest IH]; [reflexivity|].
  cbn [journalFallback].
  destruct (_ || _); [apply journalFallbackSum_lastActivity | exact IH].
Qed.

Lemma stats_lastActivity args :
  lastActivity (computePlayerStatsFromSheetCSV args)
  = jLastActivity (parseJournalTotals (Csv.parseCSV (csvText args))).
Proof.
  unfold computePlayerStatsFromSheetCSV. now destruct (parseOpenPositions _).
Qed.

(** C10. For every input text the stats record has [lastActivity] absent:
    the record of columns collected for the seven journal headers has at
    most five keys, so no row is ever accepted as the combined header,
    the journal extractor always runs its fallback path, and that path
    never assigns [lastActivity]. *)
Theorem C10_lastActivity_always_absent :
  (forall rr : row, (size (collectColumns rr (map normalize journalHeaders) ∅) <= 5)%nat)
  /\ (forall g : grid, findHeaderRow g journalHeaders = None)
  /\ (forall g : grid, jLastActivity (parseJournalTotals g) = None)
  /\ (forall args : Args, lastActivity (computePlayerStatsFromSheetCSV args) = None).
Proof.
  split; [exact journal_record_size|].
  split; [exact findHeaderRow_journal|].
  split.
  - intros g. rewrite parseJournalTotals_fallback. apply journalFallback_lastActivity.
  - intros args. rewrite stats_lastActivity, parseJournalTotals_fallback.
    apply journalFallback_lastActivity.
Qed.

(** C1. On a grid whose single header row holds both action columns, both
    date-and-time columns, the status column and the received and paid
    columns, the journal extractor does not take the primary path: the
    header search fails, the fallback path runs and [lastActivity] stays
    absent, where the primary path on that row would report the last
    non-blank cell of the rightmost date-and-time column. *)
Theorem C1_primary_path_not_taken :
  let g := Csv.parseCSV journalSheet in
  g = [["Action"; "Date & Time"; "Total $ Received"; "Status";
        "Action"; "Date & Time"; "Total $ Paid"];
       ["SELL"; "2024-01-01"; "1000"; "ok"; "BUY"; "2024-01-02"; "400"]]
  /\ (forall g' : grid, parseJournalTotals g' = journalFallback g')
  /\ findHeaderRow g journalHeaders = None
  /\ parseJournalTotals g = mkJournalTotals (Num.ofZ 1000) (Num.ofZ 400) 1 None
  /\ journalPrimary g 0 = mkJournalTotals (Num.ofZ 1000) (Num.ofZ 400) 1 (Some "2024-01-02")
  /\ lastActivity (computePlayerStatsFromSheetCSV (mkArgs "p" journalSheet (Num.ofZ 10000))) = None.
Proof.
  cbv zeta. split; [vm_compute; reflexivity|].
  split; [exact parseJournalTotals_fallback|].
  split; [apply findHeaderRow_journal|].
  split; [rewrite parseJournalTotals_fallback; vm_compute; reflexivity|].
  split; [vm_compute; reflexivity|].
  rewrite stats_lastActivity, parseJournalTotals_fallback. apply journalFallback_lastActivity.
Qed.

(** ** parseNumber *)

(** [+:+] does not unfold under [simpl]; these are its two equations. *)
Lemma append_nil (b : string) : "" +:+ b = b.
Proof. reflexivity. Qed.

Lemma append_cons (c : ascii) (a b : string) : String c a +:+ b = String c (a +:+ b).
Proof. reflexivity. Qed.

Ltac unfold_append := rewrite ?append_cons, ?append_nil.

Lemma removeCommaDollar_app a b :
  Str.removeCommaDollar (a +:+ b) = Str.removeCommaDollar a +:+ Str.removeCommaDollar b.
Proof.
  induction a as [|c a IH]; [reflexivity|].
  unfold_append. cbn [Str.removeCommaDollar]. rewrite IH. now destruct (_ || _).
Qed.

Lemma stripTrailing_snoc c x : Str.stripTrailing c (x +:+ String c "") = x.
Proof.
  induction x as [|a x IH]; unfold_append; cbn [Str.stripTrailing].
  - now rewrite Ascii.eqb_refl.
  - rewrite IH. destruct x; reflexivity.
Qed.

Lemma dotsThenClose_snoc inner :
  Str.dotsThenClose (inner +:+ ")") = noLineTerminator inner.
Proof.
  induction inner as [|a x IH]; [reflexivity|].
  unfold_append. cbn [Str.dotsThenClose noLineTerminator]. rewrite IH.
  destruct x; reflexivity.
Qed.

Lemma cleanNumberText_wrapped inner :
  cleanNumberText ("(" +:+ inner +:+ ")") = innerNumberText inner.
Proof.
  unfold cleanNumberText, innerNumberText.
  unfold_append. cbn [Str.removeCommaDollar]. cbn [Ascii.eqb Bool.eqb orb Str.stripLeading].
  rewrite removeCommaDollar_app.
  change (Str.removeCommaDollar ")") with (String ")"%char "").
  now rewrite stripTrailing_snoc.
Qed.

Lemma parenWrapped_wrapped inner :
  Str.parenWrapped ("(" +:+ inner +:+ ")") = noLineTerminator inner.
Proof. unfold_append. cbn. apply dotsThenClose_snoc. Qed.

Lemma isFinite_neg n : Num.isFinite (Num.neg n) = Num.isFinite n.
Proof. now destruct n. Qed.

(** C2, as amended. When the trimmed text is an opening parenthesis, an
    inner text without line terminator and a closing parenthesis, and the
    cleaned inner text converts to a finite number [n], [parseNumber]
    returns [-n]: the sign of the inner text is kept and then flipped, so
    the text (-5) gives +5 and the text (500) gives -500. *)
Theorem C2_parentheses_negate_inner_number (str inner : string) :
  Str.trim str = "(" +:+ inner +:+ ")" ->
  noLineTerminator inner = true ->
  Num.isFinite (StrNum.StringToNumber (innerNumberText inner)) = true ->
  parseNumber (RawString str)
  = Some (Num.neg (StrNum.StringToNumber (innerNumberText inner))).
Proof.
  intros Htrim Hdots Hfin. unfold parseNumber. rewrite Htrim.
  rewrite cleanNumberText_wrapped, parenWrapped_wrapped, Hdots, Hfin.
  reflexivity.
Qed.

Lemma C2_parentheses_negate_inner_number_witness :
  parseNumber (RawString " (-5) ") = Some (Num.neg (StrNum.StringToNumber "-5"))
  /\ Num.neg (StrNum.StringToNumber "-5") = Num.ofZ 5.
Proof.
  split.
  - apply (C2_parentheses_negate_inner_number " (-5) " "-5"); vm_compute; reflexivity.
  - vm_compute; reflexivity.
Defined.

(** The claim C2 as it is written fails on the text (-5): the text is
    wrapped, its inner text converts to the finite number -5, and the
    result is +5, not the magnitude 5 multiplied by -1. *)
Lemma C2_counterexample :
  Str.parenWrapped (Str.trim "(-5)") = true
  /\ StrNum.StringToNumber (innerNumberText "-5") = Num.ofZ (-5)
  /\ parseNumber (RawString "(-5)") = Some (Num.ofZ 5)
  /\ parseNumber (RawString "(-5)")
     <> Some (Num.neg (SFabs (StrNum.StringToNumber (innerNumberText "-5")))).
Proof.
  split; [vm_compute; reflexivity|].
  split; [vm_compute; reflexivity|].
  split; [vm_compute; reflexivity|].
  vm_compute. discriminate.
Qed.

(** ** parseCSV *)

(** C7. Quoted fields and line endings: a quoted comma stays in its cell,
    a doubled quote inside quotes is one quote character, and a CR LF pair
    ends a row the way a lone LF does. *)
Theorem C7_quoting_and_line_endings :
  Csv.parseCSV ("a," +:+ dq +:+ "b,c" +:+ dq +:+ ",d") = [["a"; "b,c"; "d"]]
  /\ Csv.parseCSV ("a," +:+ dq +:+ "b" +:+ dq +:+ dq +:+ "c" +:+ dq +:+ ",d")
     = [["a"; "b" +:+ dq +:+ "c"; "d"]]
  /\ Csv.parseCSV ("a,b" +:+ crlf +:+ "c,d") = [["a"; "b"]; ["c"; "d"]]
  /\ Csv.parseCSV ("a,b" +:+ nl +:+ "c,d") = [["a"; "b"]; ["c"; "d"]]
  /\ Csv.parseCSV ("a,b" +:+ crlf +:+ "c,d") = Csv.parseCSV ("a,b" +:+ nl +:+ "c,d").
Proof. repeat split; vm_compute; reflexivity. Qed.

Lemma append_assoc (a b c : string) : (a +:+ b) +:+ c = a +:+ (b +:+ c).
Proof. induction a as [|x a IH]; unfold_append; [reflexivity | now rewrite IH]. Qed.

Lemma append_empty_r (a : string) : a +:+ "" = a.
Proof. induction a as [|x a IH]; unfold_append; [reflexivity | now rewrite IH]. Qed.

Lemma concat_cons2 (sep x y : string) (l : list string) :
  String.concat sep (x :: y :: l) = x +:+ sep +:+ String.concat sep (y :: l).
Proof. reflexivity. Qed.

Section ScanPlain.

Implicit Types (rest cur cell : string) (rows : grid) (rw : row).

Lemma scan_plainChar c rest rows rw cur :
  plainChar c = true ->
  Csv.scan (String c rest) rows rw cur false = Csv.scan rest rows rw (Csv.snoc cur c) false.
Proof.
  unfold plainChar. intros H.
  apply andb_prop in H as [H Hcr]. apply andb_prop in H as [H Hlf].
  apply andb_prop in H as [Hq Hc].
  apply negb_true_iff in Hq, Hc, Hlf, Hcr.
  cbn [Csv.scan]. now rewrite Hq, Hc, Hlf, Hcr.
Qed.

Lemma scan_plainCell cell rest rows rw cur :
  plainCell cell = true ->
  Csv.scan (cell +:+ rest) rows rw cur false = Csv.scan rest rows rw (cur +:+ cell) false.
Proof.
  revert cur. induction cell as [|c cell IH]; intros cur H.
  - now rewrite append_nil, append_empty_r.
  - cbn [plainCell] in H. apply andb_prop in H as [Hc Hcell].
    rewrite append_cons, (scan_plainChar _ _ _ _ _ Hc), (IH _ Hcell).
    unfold Csv.snoc. now rewrite append_assoc.
Qed.

Lemma scan_comma rest rows rw cur :
  Csv.scan ("," +:+ rest) rows rw cur false = Csv.scan rest rows (rw ++ [cur]) "" false.
Proof. reflexivity. Qed.

Lemma scan_nl rest rows rw cur :
  Csv.scan (nl +:+ rest) rows rw cur false = Csv.scan rest (rows ++ [rw ++ [cur]]) [] "" false.
Proof. reflexivity. Qed.

(** Scanning a rendered row: all its cells but the last are pushed, the
    last one is the current cell. *)
Lemma scan_renderRow (init : row) (lst : string) rest rows rw :
  forallb plainCell (init ++ [lst]) = true ->
  Csv.scan (renderRow (init ++ [lst]) +:+ rest) rows rw "" false
  = Csv.scan rest rows (rw ++ init) lst false.
Proof.
  revert rw. induction init as [|c init IH]; intros rw H.
  - cbn in H. apply andb_prop in H as [H _].
    cbn. rewrite (scan_plainCell _ _ _ _ _ H), append_nil. now rewrite app_nil_r.
  - change ((c :: init) ++ [lst]) with (c :: (init ++ [lst])) in *.
    cbn [forallb] in H. apply andb_prop in H as [Hc Hrest].
    unfold renderRow in *.
    destruct (init ++ [lst]) as [|y l] eqn:E; [now destruct init|].
    rewrite concat_cons2, !append_assoc, (scan_plainCell _ _ _ _ _ Hc), append_nil.
    rewrite scan_comma, IH by exact Hrest.
    now rewrite <- app_assoc.
Qed.

Lemma scan_renderRow_full (r : row) rest rows :
  r <> [] -> forallb plainCell r = true ->
  exists init lst, r = init ++ [lst] /\
    Csv.scan (renderRow r +:+ rest) rows [] "" false = Csv.scan rest rows init lst false.
Proof.
  intros Hne H. destruct (exists_last Hne) as (init & lst & ->).
  exists init, lst. split; [reflexivity|]. now rewrite scan_renderRow.
Qed.

(** Scanning a rendered grid with at least one row appends its rows. *)
Lemma scan_renderGrid (g : grid) rows :
  g <> [] -> plainCells g = true -> noEmptyRow g = true ->
  Csv.scan (renderGrid g) rows [] "" false = rows ++ g.
Proof.
  revert rows. induction g as [|r g IH]; intros rows Hne Hplain Hrows; [congruence|].
  cbn [plainCells noEmptyRow forallb] in Hplain, Hrows.
  apply andb_prop in Hplain as [Hr Hg]. apply andb_prop in Hrows as [Hr0 Hg0].
  assert (r <> []) as Hrne by (now destruct r).
  unfold renderGrid in *. destruct g as [|r2 g].
  - cbn [map String.concat].
    destruct (scan_renderRow_full r "" rows Hrne Hr) as (init & lst & -> & Hscan).
    rewrite append_empty_r in Hscan. rewrite Hscan. reflexivity.
  - cbn [map]. rewrite concat_cons2.
    destruct (scan_renderRow_full r (nl +:+ String.concat nl (renderRow r2 :: map renderRow g))
                rows Hrne Hr) as (init & lst & -> & Hscan).
    rewrite Hscan, scan_nl. cbn [app].
    change (renderRow r2 :: map renderRow g) with (map renderRow (r2 :: g)).
    rewrite IH by (assumption || discriminate). now rewrite <- app_assoc.
Qed.

End ScanPlain.

(** C8, as amended. Round trip: for every grid whose rows each have at
    least one cell and whose cells hold no comma, no quote character, no
    LF and no CR, the rows rendered comma-joined, joined by line feeds and
    parsed again are the grid without its trailing rows that are blank
    after trimming. *)
Theorem C8_render_parse_round_trip (g : grid) :
  plainCells g = true ->
  noEmptyRow g = true ->
  Csv.parseCSV (renderGrid g) = Csv.trimTrailingRows g.
Proof.
  intros Hplain Hrows. unfold Csv.parseCSV.
  destruct g as [|r g]; [reflexivity|].
  now rewrite scan_renderGrid.
Qed.

Lemma C8_render_parse_round_trip_witness :
  Csv.parseCSV (renderGrid [["a"; " b"]; [""]; ["c"]; [" "; ""]; [""]])
  = [["a"; " b"]; [""]; ["c"]].
Proof.
  rewrite (C8_render_parse_round_trip [["a"; " b"]; [""]; ["c"]; [" "; ""]; [""]]);
    vm_compute; reflexivity.
Defined.

(** The claim C8 as it is written fails on a grid with a row of no cell
    above a row with text: the empty row is rendered as an empty line and
    parsed back as a row of one empty cell. *)
Lemma C8_counterexample :
  plainCells [[]; ["a"]] = true
  /\ Csv.parseCSV (renderGrid [[]; ["a"]]) = [[""]; ["a"]]
  /\ Csv.trimTrailingRows [[]; ["a"]] = [[]; ["a"]]
  /\ Csv.parseCSV (renderGrid [[]; ["a"]]) <> Csv.trimTrailingRows [[]; ["a"]].
Proof.
  split; [reflexivity|]. split; [reflexivity|]. split; [reflexivity|].
  vm_compute. discriminate.
Qed.

(** ** The label locator and the aggregator *)

Lemma scanRowForLabel_none label rr :
  noLabelInRow label rr = true -> scanRowForLabel (normalize label) rr = None.
Proof.
  induction rr as [|cell rr IH]; [reflexivity|].
  cbn [noLabelInRow forallb scanRowForLabel]. intros H.
  apply andb_prop in H as [Hc Hrr]. apply negb_true_iff in Hc.
  unfold isLabel in Hc. rewrite Hc. now apply IH.
Qed.

Lemma scanRowForLabel_first label cells cell right :
  noLabelInRow label cells = true ->
  isLabel label cell = true ->
  scanRowForLabel (normalize label) (cells ++ cell :: right)
  = Some (parseNumber (rawOf (head right))).
Proof.
  intros Hcells Hcell. induction cells as [|c cells IH].
  - cbn [app scanRowForLabel]. unfold isLabel in Hcell. now rewrite Hcell.
  - cbn [noLabelInRow forallb] in Hcells. apply andb_prop in Hcells as [Hc Hrest].
    apply negb_true_iff in Hc. unfold isLabel in Hc.
    cbn [app scanRowForLabel]. rewrite Hc. now apply IH.
Qed.

Lemma findCellAdjacentToLabel_none label g :
  noLabelInGrid label g = true -> findCellAdjacentToLabel g label = None.
Proof.
  unfold findCellAdjacentToLabel. induction g as [|rr g IH]; [reflexivity|].
  cbn [noLabelInGrid forallb scanGridForLabel]. intros H.
  apply andb_prop in H as [Hrr Hg].
  rewrite (scanRowForLabel_none _ _ Hrr). now apply IH.
Qed.

Lemma findCellAdjacentToLabel_first label pre cells cell right post :
  noLabelInGrid label pre = true ->
  noLabelInRow label cells = true ->
  isLabel label cell = true ->
  findCellAdjacentToLabel (pre ++ (cells ++ cell :: right) :: post) label
  = parseNumber (rawOf (head right)).
Proof.
  intros Hpre Hcells Hcell. unfold findCellAdjacentToLabel.
  induction pre as [|rr pre IH].
  - cbn [app scanGridForLabel]. now rewrite (scanRowForLabel_first _ _ _ _ Hcells Hcell).
  - cbn [noLabelInGrid forallb] in Hpre. apply andb_prop in Hpre as [Hrr Hrest].
    cbn [app scanGridForLabel]. rewrite (scanRowForLabel_none _ _ Hrr). now apply IH.
Qed.

(** The first matching cell exists as soon as some cell matches. *)
Lemma noLabelInRow_cases label (rr : row) :
  noLabelInRow label rr = true
  \/ exists cells cell right,
       rr = cells ++ cell :: right
       /\ noLabelInRow label cells = true /\ isLabel label cell = true.
Proof.
  induction rr as [|c rr IH]; [now left|].
  destruct (isLabel label c) eqn:Hc.
  - right. exists [], c, rr. now repeat split.
  - destruct IH as [Hnone | (cells & cell & right & -> & Hcells & Hcell)].
    + left. cbn [noLabelInRow forallb]. now rewrite Hc.
    + right. exists (c :: cells), cell, right. repeat split; [|exact Hcell].
      cbn [noLabelInRow forallb]. now rewrite Hc.
Qed.

Lemma noLabelInGrid_cases label (g : grid) :
  noLabelInGrid label g = true
  \/ exists pre cells cell right post,
       g = pre ++ (cells ++ cell :: right) :: post
       /\ noLabelInGrid label pre = true
       /\ noLabelInRow label cells = true /\ isLabel label cell = true.
Proof.
  induction g as [|rr g IH]; [now left|].
  destruct (noLabelInRow_cases label rr) as [Hrr | (cells & cell & right & -> & Hcells & Hcell)].
  - destruct IH as [Hnone | (pre & cells & cell & right & post & -> & Hpre & Hcells & Hcell)].
    + left. cbn [noLabelInGrid forallb]. now rewrite Hrr.
    + right. exists (rr :: pre), cells, cell, right, post. repeat split; try assumption.
      cbn [noLabelInGrid forallb]. now rewrite Hrr.
  - right. exists [], cells, cell, right, g. now repeat split.
Qed.

Lemma stats_realizedPL args :
  let g := Csv.parseCSV (csvText args) in
  let journal := parseJournalTotals g in
  realizedPL (computePlayerStatsFromSheetCSV args)
  = match findCellAdjacentToLabel g realizedLabel with
    | Some v => v
    | None => Num.sub (creditsTotal journal) (debitsTotal journal)
    end.
Proof.
  cbv zeta. unfold computePlayerStatsFromSheetCSV. now destruct (parseOpenPositions _).
Qed.

(** C3. [realizedPL] is the number to the right of the first cell, rows
    top to bottom and cells left to right, that matches the label
    Realized P/L: after trimming and lower-casing, when that cell
    normalises to a number; in every other case, also when no cell
    matches, it is the journal's credits minus its debits; every grid
    is in one of the two cases. With no label and a journal of credits
    1000 and debits 400 it is 600. *)
Theorem C3_realizedPL_label_or_journal :
  (forall (args : Args) (pre post : grid) (cells right : row) (cell : string),
     Csv.parseCSV (csvText args) = pre ++ (cells ++ cell :: right) :: post ->
     noLabelInGrid realizedLabel pre = true ->
     noLabelInRow realizedLabel cells = true ->
     isLabel realizedLabel cell = true ->
     let journal := parseJournalTotals (Csv.parseCSV (csvText args)) in
     realizedPL (computePlayerStatsFromSheetCSV args)
     = match parseNumber (rawOf (head right)) with
       | Some v => v
       | None => Num.sub (creditsTotal journal) (debitsTotal journal)
       end)
  /\ (forall args : Args,
        noLabelInGrid realizedLabel (Csv.parseCSV (csvText args)) = true ->
        let journal := parseJournalTotals (Csv.parseCSV (csvText args)) in
        realizedPL (computePlayerStatsFromSheetCSV args)
        = Num.sub (creditsTotal journal) (debitsTotal journal))
  /\ (forall g : grid,
        noLabelInGrid realizedLabel g = true
        \/ exists pre cells cell right post,
             g = pre ++ (cells ++ cell :: right) :: post
             /\ noLabelInGrid realizedLabel pre = true
             /\ noLabelInRow realizedLabel cells = true
             /\ isLabel realizedLabel cell = true)
  /\ (let args := mkArgs "p" journalSheet (Num.ofZ 10000) in
      let journal := parseJournalTotals (Csv.parseCSV (csvText args)) in
      noLabelInGrid realizedLabel (Csv.parseCSV (csvText args)) = true
      /\ creditsTotal journal = Num.ofZ 1000
      /\ debitsTotal journal = Num.ofZ 400
      /\ realizedPL (computePlayerStatsFromSheetCSV args) = Num.ofZ 600).
Proof.
  split; [|split; [|split]].
  - intros args pre post cells right cell Hg Hpre Hcells Hcell journal.
    rewrite stats_realizedPL. cbv zeta. rewrite Hg at 1.
    now rewrite (findCellAdjacentToLabel_first _ _ _ _ _ _ Hpre Hcells Hcell).
  - intros args Hnone journal.
    rewrite stats_realizedPL. cbv zeta.
    now rewrite (findCellAdjacentToLabel_none _ _ Hnone).
  - intros g. apply noLabelInGrid_cases.
  - cbv zeta. repeat split; vm_compute; reflexivity.
Qed.

Lemma C3_realizedPL_label_or_journal_witness :
  realizedPL (computePlayerStatsFromSheetCSV (mkArgs "p" labelSheet (Num.ofZ 10000)))
  = Num.ofZ 2500
  /\ realizedPL (computePlayerStatsFromSheetCSV (mkArgs "p" journalSheet (Num.ofZ 10000)))
     = Num.ofZ 600.
Proof.
  pose proof C3_realizedPL_label_or_journal as (Hlabel & Hnone & _ & _).
  split.
  - rewrite (Hlabel (mkArgs "p" labelSheet (Num.ofZ 10000))
               [["Summary"; ""; ""; ""]] (Csv.parseCSV journalSheet)
               ["note"] ["$2,500"; "x"] "  REALIZED p/l: ");
      vm_compute; reflexivity.
  - rewrite (Hnone (mkArgs "p" journalSheet (Num.ofZ 10000))); vm_compute; reflexivity.
Defined.

(** C5. A capital that is not a finite positive number is replaced by
    10000 before any derived field is computed: for every call, with the
    realized and the unrealized amounts that the extractors give on the
    parsed text, [totalPL] is their sum, [returnPct] is [totalPL] divided
    by the capital so fixed and [equity] is that capital plus [totalPL].
    On the sheet with a realized amount of 2500 and open positions worth
    300, a capital of 0, -0, -250, NaN or an infinity gives the record of
    the capital 10000 (total 2800, return 0.28, equity 12800), and the
    capital 5000 gives the return 0.56 and the equity 7800. *)
Theorem C5_capital_default_and_derived_fields :
  (forall args : Args,
     let g := Csv.parseCSV (csvText args) in
     let journal := parseJournalTotals g in
     let realized :=
       match findCellAdjacentToLabel g realizedLabel with
       | Some v => v
       | None => Num.sub (creditsTotal journal) (debitsTotal journal)
       end in
     let unrealized := snd (parseOpenPositions g) in
     let total := Num.add realized unrealized in
     let supplied := initialCapital args in
     let capital :=
       if Num.isFinite supplied && Num.ltb Num.zero supplied
       then supplied else Num.ofZ 10000 in
     let st := computePlayerStatsFromSheetCSV args in
     realizedPL st = realized
     /\ unrealizedPL st = unrealized
     /\ totalPL st = total
     /\ returnPct st = Num.div total capital
     /\ equity st = Num.add capital total)
  /\ (let st := computePlayerStatsFromSheetCSV (mkArgs "p" scenarioSheet (Num.ofZ 10000)) in
      realizedPL st = Num.ofZ 2500
      /\ unrealizedPL st = Num.ofZ 300
      /\ totalPL st = Num.ofZ 2800
      /\ returnPct st = Num.div (Num.ofZ 28) (Num.ofZ 100)
      /\ equity st = Num.ofZ 12800)
  /\ (forall supplied : num,
        In supplied [Num.ofZ 0; Num.neg Num.zero; Num.ofZ (-250); Num.NaN;
                     S754_infinity false; S754_infinity true] ->
        computePlayerStatsFromSheetCSV (mkArgs "p" scenarioSheet supplied)
        = computePlayerStatsFromSheetCSV (mkArgs "p" scenarioSheet (Num.ofZ 10000)))
  /\ (let st := computePlayerStatsFromSheetCSV (mkArgs "p" scenarioSheet (Num.ofZ 5000)) in
      totalPL st = Num.ofZ 2800
      /\ returnPct st = Num.div (Num.ofZ 56) (Num.ofZ 100)
      /\ equity st = Num.ofZ 7800).
Proof.
  split; [|split; [|split]].
  - intros args. cbv zeta. unfold computePlayerStatsFromSheetCSV.
    change "Realized P/L:" with realizedLabel.
    destruct (parseOpenPositions _) as [positions unrealizedTotal].
    cbn [totalPL realizedPL unrealizedPL returnPct equity snd].
    unfold effectiveCapital, defaultCapital. repeat split.
  - cbv zeta. repeat split; vm_compute; reflexivity.
  - intros supplied Hin. cbn [In] in Hin.
    destruct Hin as [<-|[<-|[<-|[<-|[<-|[<-|[]]]]]]]; vm_compute; reflexivity.
  - cbv zeta. repeat split; vm_compute; reflexivity.
Qed.

Lemma C5_capital_default_and_derived_fields_witness :
  equity (computePlayerStatsFromSheetCSV (mkArgs "p" scenarioSheet Num.NaN)) = Num.ofZ 12800
  /\ returnPct (computePlayerStatsFromSheetCSV (mkArgs "p" scenarioSheet (Num.ofZ (-250))))
     = Num.div (Num.ofZ 28) (Num.ofZ 100).
Proof.
  destruct C5_capital_default_and_derived_fields as (_ & (_ & _ & _ & Hret & Heq) & Hsame & _).
  cbv zeta in Hret, Heq. split.
  - rewrite (Hsame Num.NaN); [exact Heq|]. cbn [In]. tauto.
  - rewrite (Hsame (Num.ofZ (-250))); [exact Hret|]. cbn [In]. tauto.
Defined.

(** ** The open-positions extractor *)

Section OpenHeader.

Implicit Types (rr : row) (m : gmap string Z).

Lemma collectColumns_found rr header rest m :
  (indexOf rr header =? -1) = false ->
  String.eqb header "__proto__" = false ->
  collectColumns rr (header :: rest) m
  = collectColumns rr rest (<[header := indexOf rr header]> m).
Proof. intros H Hkey. cbn [collectColumns]. unfold setColumn. now rewrite H, Hkey. Qed.

Lemma collectColumns_missing rr header rest m :
  (indexOf rr header =? -1) = true ->
  isDateTime header = false ->
  collectColumns rr (header :: rest) m = m.
Proof. intros H Hdt. cbn [collectColumns]. now rewrite H, Hdt. Qed.

Lemma openHeaders_normalized :
  map normalize openPositionHeaders = openPositionHeaders.
Proof. vm_compute. reflexivity. Qed.

Ltac size_of_inserts :=
  repeat (rewrite map_size_insert_None by (simplify_map_eq; reflexivity));
  rewrite map_size_empty.

(** The record collected on a row has its four keys exactly when the row
    names the four columns, and then holds the first index of each. *)
Lemma collectColumns_open rr :
  let n := map normalize rr in
  let cols := collectColumns n openPositionHeaders ∅ in
  if hasOpenHeaders rr then
    size cols = 4%nat
    /\ cols !! "quantity" = Some (indexOf n "quantity")
    /\ cols !! "open price" = Some (indexOf n "open price")
    /\ cols !! "current price" = Some (indexOf n "current price")
    /\ cols !! "unrealized gain" = Some (indexOf n "unrealized gain")
  else (size cols < 4)%nat.
Proof.
  cbv zeta. unfold hasOpenHeaders, openPositionHeaders.
  set (n := map normalize rr).
  destruct (indexOf n "quantity" =? -1) eqn:Hq; cbn [negb andb].
  { rewrite collectColumns_missing by (exact Hq || (vm_compute; reflexivity)).
    rewrite map_size_empty. lia. }
  rewrite (collectColumns_found _ _ _ _ Hq eq_refl).
  destruct (indexOf n "open price" =? -1) eqn:Ho; cbn [negb andb].
  { rewrite collectColumns_missing by (exact Ho || (vm_compute; reflexivity)).
    size_of_inserts. lia. }
  rewrite (collectColumns_found _ _ _ _ Ho eq_refl).
  destruct (indexOf n "current price" =? -1) eqn:Hc; cbn [negb andb].
  { rewrite collectColumns_missing by (exact Hc || (vm_compute; reflexivity)).
    size_of_inserts. lia. }
  rewrite (collectColumns_found _ _ _ _ Hc eq_refl).
  destruct (indexOf n "unrealized gain" =? -1) eqn:Hu; cbn [negb andb].
  { rewrite collectColumns_missing by (exact Hu || (vm_compute; reflexivity)).
    size_of_inserts. lia. }
  rewrite (collectColumns_found _ _ _ _ Hu eq_refl). cbn [collectColumns].
  split; [size_of_inserts; reflexivity|].
  repeat split; simplify_map_eq; reflexivity.
Qed.

End OpenHeader.

Lemma findHeaderRowFrom_open r (pre : grid) (hdr : row) (body : grid) :
  noOpenHeaders pre = true ->
  hasOpenHeaders hdr = true ->
  findHeaderRowFrom r (pre ++ hdr :: body) openPositionHeaders
  = Some (mkHeaderRow (r + Z.of_nat (length pre))
            (collectColumns (map normalize hdr) openPositionHeaders ∅)).
Proof.
  revert r. induction pre as [|rr pre IH]; intros r Hpre Hhdr.
  - cbn [app findHeaderRowFrom length]. pose proof (collectColumns_open hdr) as H.
    cbv zeta in H. rewrite Hhdr in H. destruct H as [-> _].
    cbn. do 2 f_equal. lia.
  - cbn [noOpenHeaders forallb] in Hpre. apply andb_prop in Hpre as [Hrr Hrest].
    apply negb_true_iff in Hrr.
    cbn [app findHeaderRowFrom]. pose proof (collectColumns_open rr) as H.
    cbv zeta in H. rewrite Hrr in H.
    destruct (Nat.eqb_spec (size (collectColumns (map normalize rr) openPositionHeaders ∅))
                (length openPositionHeaders)) as [Heq|_].
    + rewrite Heq in H. cbn in H. lia.
    + rewrite (IH _ Hrest Hhdr). do 2 f_equal. cbn [length]. lia.
Qed.

Lemma unrealizedOf_contribution (q o cp u : option num) :
  unrealizedOf (default Num.zero q) o cp u = contribution (q, o, cp, u).
Proof. destruct q as [qty|], o, cp, u; reflexivity. Qed.

Lemma openPositionsLoop_total (hdr : row) (start k : Z) (rows : grid)
    (positions : list Position) (total : num) :
  let n := map normalize hdr in
  snd (openPositionsLoop start (start + k) rows
         (Some (indexOf n "quantity")) (Some (indexOf n "open price"))
         (Some (indexOf n "current price")) (Some (indexOf n "unrealized gain"))
         positions total)
  = sumFrom total (contributions hdr k rows).
Proof.
  cbv zeta. revert k positions total.
  induction rows as [|rr rest IH]; intros k positions total; [reflexivity|].
  cbn [openPositionsLoop contributions cellAtCol]. unfold positionCells.
  replace (start + 2 <? start + k) with (2 <? k)
    by (destruct (Z.ltb_spec 2 k), (Z.ltb_spec (start + 2) (start + k)); (reflexivity || lia)).
  replace (start + k + 1) with (start + (k + 1)) by lia.
  destruct (parseNumber (rawOf (cellAt rr (indexOf (map normalize hdr) "quantity")))) as [q|];
  destruct (parseNumber (rawOf (cellAt rr (indexOf (map normalize hdr) "open price")))) as [o|];
  destruct (parseNumber (rawOf (cellAt rr (indexOf (map normalize hdr) "current price")))) as [cp|];
  destruct (parseNumber (rawOf (cellAt rr (indexOf (map normalize hdr) "unrealized gain")))) as [u|];
  cbn [allAbsent];
  try (rewrite IH; cbn [sumFrom fold_left contribution default unrealizedOf]; reflexivity).
  destruct (2 <? k); [reflexivity | apply IH].
Qed.

Lemma parseOpenPositions_total (pre : grid) (hdr : row) (body : grid) :
  noOpenHeaders pre = true ->
  hasOpenHeaders hdr = true ->
  snd (parseOpenPositions (pre ++ hdr :: body)) = sumFrom Num.zero (contributions hdr 0 body).
Proof.
  intros Hpre Hhdr. unfold parseOpenPositions, findHeaderRow.
  rewrite openHeaders_normalized, (findHeaderRowFrom_open _ _ _ _ Hpre Hhdr).
  cbn [rowIndex colIndexByHeader].
  pose proof (collectColumns_open hdr) as H. cbv zeta in H. rewrite Hhdr in H.
  destruct H as (_ & -> & -> & -> & ->).
  replace (Z.to_nat (0 + Z.of_nat (length pre) + 1)) with (length (pre ++ [hdr]))
    by (rewrite length_app; cbn [length]; lia).
  replace (pre ++ hdr :: body) with ((pre ++ [hdr]) ++ body) by (now rewrite <- app_assoc).
  rewrite drop_app_length.
  pose proof (openPositionsLoop_total hdr (0 + Z.of_nat (length pre) + 1) 0 body [] Num.zero) as L.
  cbv zeta in L. rewrite Z.add_0_r in L. exact L.
Qed.

(** C4, as amended. Below the first row that names quantity, open price,
    current price and unrealized gain, each data row contributes its
    explicit unrealized-gain cell when present, else quantity times
    (current price minus open price) when the quantity is a non-zero
    number and both prices are present, else 0; an all-absent row is
    skipped at the positions up to start+2 and ends the scan beyond that;
    the total is the sum of the contributions in scan order. The two data
    rows (10, 5, 7, absent) and (-5, absent, absent, 20) give 40. *)
Theorem C4_open_positions_total :
  (forall (pre : grid) (hdr : row) (body : grid),
     noOpenHeaders pre = true ->
     hasOpenHeaders hdr = true ->
     snd (parseOpenPositions (pre ++ hdr :: body))
     = sumFrom Num.zero (contributions hdr 0 body))
  /\ Csv.parseCSV positionsSheet
     = [["Quantity"; "Open Price"; "Current Price"; "Unrealized Gain"];
        ["10"; "5"; "7"; ""];
        ["-5"; ""; ""; "20"]]
  /\ snd (parseOpenPositions (Csv.parseCSV positionsSheet)) = Num.ofZ 40.
Proof.
  split; [exact parseOpenPositions_total|].
  split; vm_compute; reflexivity.
Qed.

Lemma C4_open_positions_total_witness :
  snd (parseOpenPositions sparseSheet) = Num.ofZ 20.
Proof.
  pose proof C4_open_positions_total as (H & _).
  change sparseSheet with ([["Open Positions"]] ++ nth 1 sparseSheet [] :: drop 2 sparseSheet).
  rewrite H; vm_compute; reflexivity.
Defined.

(** The claim C4 as it is written fails on a row of quantity 0 whose two
    prices are present and far apart: the code contributes 0 because the
    quantity is zero, where quantity times (current price minus open
    price) is 0 times infinity, which is NaN. *)
Lemma C4_counterexample :
  let g := Csv.parseCSV overflowSheet in
  let hdr := ["Quantity"; "Open Price"; "Current Price"; "Unrealized Gain"] in
  let cells := positionCells hdr ["0"; "-1e308"; "1e308"; ""] in
  g = [hdr; ["0"; "-1e308"; "1e308"; ""]]
  /\ (exists o cp, cells = (Some Num.zero, Some o, Some cp, None)
                   /\ Num.sub cp o = S754_infinity false)
  /\ claimedContribution cells = Num.NaN
  /\ snd (parseOpenPositions g) = Num.zero
  /\ snd (parseOpenPositions g) <> sumFrom Num.zero [claimedContribution cells].
Proof.
  cbv zeta. split; [vm_compute; reflexivity|].
  split; [eexists _, _; split; vm_compute; reflexivity|].
  split; [vm_compute; reflexivity|].
  split; [vm_compute; reflexivity|].
  vm_compute. discriminate.
Qed.

(** * Further properties of the code *)

(** ** parseCSV: the shape of the result *)

Lemma string_length_ind (P : string -> Prop) :
  (forall s, (forall t, (String.length t < String.length s)%nat -> P t) -> P s) ->
  forall s, P s.
Proof.
  intros H s. remember (String.length s) as n eqn:E.
  revert s E. induction n as [n IH] using lt_wf_ind. intros s ->.
  apply H. intros t Ht. now apply (IH (String.length t)).
Qed.

(** One step of the scan: the state after the character(s) read at the
    head of a non-empty text. *)
Lemma scan_step_cases (P : string -> grid -> row -> string -> bool -> Prop)
    ch rest rows rw cur inQuotes :
  (forall rest', rest = String Csv.dquote rest' -> inQuotes = true -> ch = Csv.dquote ->
                 P rest' rows rw (Csv.snoc cur Csv.dquote) true) ->
  (inQuotes = true -> ch = Csv.dquote -> P rest rows rw cur false) ->
  (inQuotes = true -> ch <> Csv.dquote -> P rest rows rw (Csv.snoc cur ch) true) ->
  (inQuotes = false -> ch = Csv.dquote -> P rest rows rw cur true) ->
  (inQuotes = false -> ch = Csv.comma -> P rest rows (rw ++ [cur]) "" false) ->
  (forall rest', inQuotes = false -> ch = Csv.CR -> rest = String Csv.LF rest' ->
                 P rest' (rows ++ [rw ++ [cur]]) [] "" false) ->
  (inQuotes = false -> ch = Csv.LF \/ ch = Csv.CR -> P rest (rows ++ [rw ++ [cur]]) [] "" false) ->
  (inQuotes = false -> plainChar ch = true -> P rest rows rw (Csv.snoc cur ch) false) ->
  exists text' rows' rw' cur' q',
    Csv.scan (String ch rest) rows rw cur inQuotes = Csv.scan text' rows' rw' cur' q'
    /\ (String.length text' < String.length (String ch rest))%nat
    /\ P text' rows' rw' cur' q'.
Proof.
  intros H1 H2 H3 H4 H5 H6 H7 H8. cbn [Csv.scan].
  destruct inQuotes.
  - destruct (Ascii.eqb_spec ch Csv.dquote) as [->|Hne].
    + destruct rest as [|next rest'].
      * eexists _, _, _, _, _. split; [reflexivity|]. split; [cbn; lia|]. now apply H2.
      * destruct (Ascii.eqb_spec next Csv.dquote) as [->|Hn].
        -- eexists _, _, _, _, _. split; [reflexivity|]. split; [cbn; lia|]. now apply H1.
        -- eexists _, _, _, _, _. split; [reflexivity|]. split; [cbn; lia|]. now apply H2.
    + eexists _, _, _, _, _. split; [reflexivity|]. split; [cbn; lia|]. now apply H3.
  - destruct (Ascii.eqb_spec ch Csv.dquote) as [->|Hq].
    { eexists _, _, _, _, _. split; [reflexivity|]. split; [cbn; lia|]. now apply H4. }
    destruct (Ascii.eqb_spec ch Csv.comma) as [->|Hc].
    { eexists _, _, _, _, _. split; [reflexivity|]. split; [cbn; lia|]. now apply H5. }
    destruct (Ascii.eqb_spec ch Csv.LF) as [->|Hl].
    { eexists _, _, _, _, _. split; [reflexivity|]. split; [cbn; lia|]. apply H7; auto. }
    destruct (Ascii.eqb_spec ch Csv.CR) as [->|Hr].
    { destruct rest as [|next rest'].
      - eexists _, _, _, _, _. split; [reflexivity|]. split; [cbn; lia|]. apply H7; auto.
      - destruct (Ascii.eqb_spec next Csv.LF) as [->|Hn].
        + eexists _, _, _, _, _. split; [reflexivity|]. split; [cbn; lia|]. now apply (H6 rest').
        + eexists _, _, _, _, _. split; [reflexivity|]. split; [cbn; lia|]. apply H7; auto. }
    eexists _, _, _, _, _. split; [reflexivity|]. split; [cbn; lia|]. apply H8; [reflexivity|].
    unfold plainChar.
    apply Ascii.eqb_neq in Hq, Hc, Hl, Hr. now rewrite Hq, Hc, Hl, Hr.
Qed.

(** An invariant of the scan state that every step keeps holds of the
    rows returned. *)
Lemma scan_invariant (I : grid -> row -> string -> Prop) (R : grid -> Prop) :
  (forall rows rw cur ch, I rows rw cur -> I rows rw (Csv.snoc cur ch)) ->
  (forall rows rw cur, I rows rw cur -> I rows (rw ++ [cur]) "") ->
  (forall rows rw cur, I rows rw cur -> I (rows ++ [rw ++ [cur]]) [] "") ->
  (forall rows rw cur, I rows rw cur -> R (rows ++ [rw ++ [cur]])) ->
  forall text rows rw cur inQuotes,
    I rows rw cur -> R (Csv.scan text rows rw cur inQuotes).
Proof.
  intros Hsnoc Hcomma Hrow Hend text.
  induction text as [text IH] using string_length_ind.
  intros rows rw cur inQuotes HI.
  destruct text as [|ch rest]; [now apply Hend|].
  destruct (scan_step_cases (fun _ rows' rw' cur' _ => I rows' rw' cur')
              ch rest rows rw cur inQuotes)
    as (text' & rows' & rw' & cur' & q' & -> & Hlen & HI'); auto.
Qed.

Lemma trimTrailingRows_split (rows : grid) :
  exists tail, rows = Csv.trimTrailingRows rows ++ tail /\ forallb rowBlank tail = true.
Proof.
  induction rows as [|rw rows (tail & E & Hb)].
  - now exists [].
  - cbn [Csv.trimTrailingRows].
    destruct (Csv.trimTrailingRows rows) as [|r t] eqn:Et.
    + cbn [app] in E. subst tail. destruct (rowBlank rw) eqn:Hrw.
      * exists (rw :: rows). split; [reflexivity|]. cbn [forallb]. now rewrite Hrw.
      * exists rows. now split.
    + exists tail. split; [|exact Hb]. now rewrite E at 1.
Qed.

Lemma trimTrailingRows_last (rows : grid) :
  match last (Csv.trimTrailingRows rows) with
  | Some rw => rowBlank rw = false
  | None => True
  end.
Proof.
  induction rows as [|rw rows IH]; [exact I|].
  cbn [Csv.trimTrailingRows].
  destruct (Csv.trimTrailingRows rows) as [|r t] eqn:Et.
  - destruct (rowBlank rw) eqn:Hrw; [exact I | exact Hrw].
  - now rewrite last_cons_cons.
Qed.

Lemma trimTrailingRows_all_blank (rows : grid) :
  forallb rowBlank rows = true -> Csv.trimTrailingRows rows = [].
Proof.
  induction rows as [|rw rows IH]; [reflexivity|].
  cbn [forallb]. intros H. apply andb_prop in H as [Hrw Hrows].
  cbn [Csv.trimTrailingRows]. now rewrite (IH Hrows), Hrw.
Qed.

(** X2. Every row that [parseCSV] returns has at least one cell, whatever
    the text: a row is pushed only together with its last cell. *)
Theorem parseCSV_rows_nonempty (text : string) :
  Forall (fun rw : row => rw <> []) (Csv.parseCSV text).
Proof.
  unfold Csv.parseCSV.
  assert (Forall (fun rw : row => rw <> []) (Csv.scan text [] [] "" false)) as H.
  { apply (scan_invariant (fun rows _ _ => Forall (fun rw : row => rw <> []) rows)); auto.
    - intros rows rw cur Hrows. apply Forall_app. split; [exact Hrows|].
      constructor; [|constructor]. now destruct rw.
    - intros rows rw cur Hrows. apply Forall_app. split; [exact Hrows|].
      constructor; [|constructor]. now destruct rw. }
  destruct (trimTrailingRows_split (Csv.scan text [] [] "" false)) as (tail & E & _).
  rewrite E in H. now apply Forall_app in H as [H _].
Qed.

(** X3. [parseCSV] drops rows only at the end and only blank ones, and
    what it returns does not end with a blank row: the scanned rows are
    the result followed by rows whose cells are all blank, and the last
    row of a non-empty result has a cell with text. *)
Theorem parseCSV_drops_only_trailing_blank_rows (text : string) :
  (exists tail : grid,
     Csv.scan text [] [] "" false = Csv.parseCSV text ++ tail
     /\ forallb rowBlank tail = true)
  /\ match last (Csv.parseCSV text) with
     | Some rw => rowBlank rw = false
     | None => True
     end.
Proof.
  split; [apply trimTrailingRows_split | apply trimTrailingRows_last].
Qed.

(** ** parseCSV: blank texts and a quote left open *)

Lemma trimStart_white (s : string) :
  allChars Str.isWhiteSpace s = true -> Str.trimStart s = "".
Proof.
  induction s as [|c s IH]; [reflexivity|].
  cbn [allChars Str.trimStart]. intros H. apply andb_prop in H as [Hc Hs].
  rewrite Hc. now apply IH.
Qed.

Lemma trim_white (s : string) :
  allChars Str.isWhiteSpace s = true -> Str.trim s = "".
Proof. intros H. unfold Str.trim. now rewrite (trimStart_white _ H). Qed.

Lemma allChars_snoc p (s : string) c :
  allChars p (Csv.snoc s c) = allChars p s && p c.
Proof.
  unfold Csv.snoc. induction s as [|a s IH]; unfold_append; cbn [allChars].
  - now rewrite andb_true_r.
  - rewrite IH. now rewrite andb_assoc.
Qed.

Lemma rowBlank_snoc (rw : row) (cur : string) :
  rowBlank (rw ++ [cur]) = rowBlank rw && blankCell cur.
Proof. unfold rowBlank. rewrite forallb_app. cbn [forallb]. now rewrite andb_true_r. Qed.

Lemma scan_blank (text : string) (rows : grid) (rw : row) (cur : string) :
  allChars blankChar text = true ->
  forallb rowBlank rows = true ->
  rowBlank rw = true ->
  allChars Str.isWhiteSpace cur = true ->
  forallb rowBlank (Csv.scan text rows rw cur false) = true.
Proof.
  revert rows rw cur. induction text as [text IH] using string_length_ind.
  intros rows rw cur Ht Hrows Hrw Hcur.
  assert (rowBlank (rw ++ [cur]) = true) as Hcell.
  { rewrite rowBlank_snoc, Hrw. unfold blankCell. now rewrite (trim_white _ Hcur). }
  assert (forallb rowBlank (rows ++ [rw ++ [cur]]) = true) as Hpush.
  { rewrite forallb_app, Hrows. cbn [forallb]. now rewrite Hcell. }
  destruct text as [|ch rest]; [exact Hpush|].
  cbn [allChars] in Ht. apply andb_prop in Ht as [Hch Hrest].
  assert (Ascii.eqb ch Csv.dquote = false) as Hq.
  { destruct (Ascii.eqb_spec ch Csv.dquote) as [->|]; [|reflexivity].
    vm_compute in Hch. discriminate. }
  cbn [Csv.scan]. rewrite Hq.
  destruct (Ascii.eqb_spec ch Csv.comma) as [->|Hc];
    [apply IH; (cbn; lia) || assumption || reflexivity|].
  destruct (Ascii.eqb_spec ch Csv.LF) as [->|Hl];
    [apply IH; (cbn; lia) || assumption || reflexivity|].
  destruct (Ascii.eqb_spec ch Csv.CR) as [->|Hr].
  - destruct rest as [|next rest'];
      [apply IH; (cbn; lia) || assumption || reflexivity|].
    destruct (Ascii.eqb_spec next Csv.LF) as [->|Hn];
      [|apply IH; (cbn; lia) || assumption || reflexivity].
    cbn [allChars] in Hrest. apply andb_prop in Hrest as [_ Hrest'].
    apply IH; (cbn; lia) || assumption || reflexivity.
  - apply IH; [cbn; lia | assumption | assumption | assumption |].
    rewrite allChars_snoc, Hcur. unfold blankChar in Hch.
    apply Ascii.eqb_neq in Hc. unfold Csv.comma in *.
    rewrite Hc, orb_false_r in Hch. exact Hch.
Qed.

(** X4. A text made of white space, commas and line breaks only, the
    empty text among them, parses to the empty grid: every row scanned is
    blank and is dropped. *)
Theorem parseCSV_blank_text (text : string) :
  allChars blankChar text = true -> Csv.parseCSV text = [].
Proof.
  intros H. unfold Csv.parseCSV. apply trimTrailingRows_all_blank.
  now apply scan_blank.
Qed.

Lemma parseCSV_blank_text_witness :
  Csv.parseCSV (" , ," +:+ crlf +:+ ",," +:+ nl +:+ "  " +:+ nl) = []
  /\ Csv.parseCSV "" = [].
Proof.
  split; apply parseCSV_blank_text; vm_compute; reflexivity.
Defined.

Lemma scan_in_quotes (t : string) (rows : grid) (rw : row) (cur : string) :
  hasChar Csv.dquote t = false ->
  Csv.scan t rows rw cur true = rows ++ [rw ++ [cur +:+ t]].
Proof.
  revert cur. induction t as [|ch t IH]; intros cur H.
  - cbn [Csv.scan]. now rewrite append_empty_r.
  - cbn [hasChar] in H. apply orb_false_elim in H as [Hch Ht].
    cbn [Csv.scan]. rewrite Hch, (IH _ Ht). unfold Csv.snoc.
    now rewrite append_assoc.
Qed.

(** X5. A quote that is never closed takes the rest of the text into one
    cell, commas and line breaks included: a text that opens a quote and
    holds no other quote character is one row of one cell. *)
Theorem parseCSV_unterminated_quote (t : string) :
  hasChar Csv.dquote t = false ->
  Csv.parseCSV (dq +:+ t) = Csv.trimTrailingRows [[t]].
Proof.
  intros H. unfold Csv.parseCSV, dq. unfold_append. cbn [Csv.scan].
  rewrite Ascii.eqb_refl. now rewrite (scan_in_quotes _ _ _ _ H).
Qed.

Lemma parseCSV_unterminated_quote_witness :
  Csv.parseCSV (dq +:+ "a,b" +:+ nl +:+ "c,d" +:+ crlf +:+ "e")
  = [["a,b" +:+ nl +:+ "c,d" +:+ crlf +:+ "e"]].
Proof.
  change (dq +:+ "a,b" +:+ nl +:+ "c,d" +:+ crlf +:+ "e")
    with (dq +:+ ("a,b" +:+ nl +:+ "c,d" +:+ crlf +:+ "e")).
  rewrite parseCSV_unterminated_quote; vm_compute; reflexivity.
Defined.

(** ** parseCSV: line endings *)

Lemma scan_toLF (t : string) (rows : grid) (rw : row) (cur : string) :
  hasChar Csv.dquote t = false ->
  Csv.scan (toLF t) rows rw cur false = Csv.scan t rows rw cur false.
Proof.
  revert rows rw cur. induction t as [t IH] using string_length_ind.
  intros rows rw cur H. destruct t as [|ch rest]; [reflexivity|].
  cbn [hasChar] in H. apply orb_false_elim in H as [Hq Hrest].
  cbn [toLF]. destruct (Ascii.eqb_spec ch Csv.CR) as [->|Hr].
  - destruct rest as [|next rest'].
    + reflexivity.
    + cbn [hasChar] in Hrest. apply orb_false_elim in Hrest as [Hnq Hrest'].
      destruct (Ascii.eqb_spec next Csv.LF) as [->|Hn].
      * cbn [Csv.scan]. cbn [Ascii.eqb Bool.eqb Csv.CR Csv.LF Csv.dquote Csv.comma].
        apply IH; [cbn; lia | exact Hrest'].
      * change (Csv.scan (String Csv.LF (toLF (String next rest'))) rows rw cur false)
          with (Csv.scan (toLF (String next rest')) (rows ++ [rw ++ [cur]]) [] "" false).
        rewrite IH by ((cbn; lia) || (cbn [hasChar]; now rewrite Hnq, Hrest')).
        cbn [Csv.scan]. apply Ascii.eqb_neq in Hn. rewrite Hn. reflexivity.
  - cbn [Csv.scan]. rewrite Hq.
    destruct (Ascii.eqb ch Csv.comma); [apply IH; [cbn; lia | exact Hrest]|].
    destruct (Ascii.eqb ch Csv.LF); [apply IH; [cbn; lia | exact Hrest]|].
    apply Ascii.eqb_neq in Hr. rewrite Hr.
    apply IH; [cbn; lia | exact Hrest].
Qed.

(** X6. Outside quotes a CR LF pair, a lone CR and a lone LF end a row
    alike: a text without quote character parses to the same grid after
    each of them is replaced by one LF. *)
Theorem parseCSV_line_endings_alike (t : string) :
  hasChar Csv.dquote t = false ->
  Csv.parseCSV (toLF t) = Csv.parseCSV t.
Proof. intros H. unfold Csv.parseCSV. now rewrite (scan_toLF _ _ _ _ H). Qed.

Lemma parseCSV_line_endings_alike_witness :
  Csv.parseCSV ("a,b" +:+ nl +:+ "c" +:+ nl +:+ nl +:+ "d")
  = Csv.parseCSV ("a,b" +:+ crlf +:+ "c" +:+ String Csv.CR "" +:+ crlf +:+ "d").
Proof.
  rewrite <- (parseCSV_line_endings_alike
                ("a,b" +:+ crlf +:+ "c" +:+ String Csv.CR "" +:+ crlf +:+ "d"));
    vm_compute; reflexivity.
Defined.

(** ** Values written by the Sheets API path are read back by parseCSV *)

Lemma includes_char (s : string) (c : ascii) :
  Str.includes s (String c "") = hasChar c s.
Proof.
  induction s as [|a s IH]; [reflexivity|].
  cbn [Str.includes hasChar String.prefix]. rewrite IH.
  destruct (ascii_dec c a) as [->|Hne].
  - rewrite Ascii.eqb_refl. now destruct s.
  - apply Ascii.eqb_neq in Hne. rewrite Ascii.eqb_sym in Hne. now rewrite Hne.
Qed.

Lemma needsQuoting_chars (s : string) :
  needsQuoting s = hasChar Csv.dquote s || hasChar Csv.comma s || hasChar Csv.LF s.
Proof. unfold needsQuoting, dq, nl. now rewrite !includes_char. Qed.

Lemma plainCell_chars (s : string) :
  plainCell s
  = negb (hasChar Csv.dquote s) && negb (hasChar Csv.comma s)
    && negb (hasChar Csv.LF s) && negb (hasChar Csv.CR s).
Proof.
  induction s as [|c s IH]; [reflexivity|].
  cbn [plainCell hasChar]. rewrite IH. unfold plainChar.
  destruct (Ascii.eqb c Csv.dquote), (Ascii.eqb c Csv.comma),
    (Ascii.eqb c Csv.LF), (Ascii.eqb c Csv.CR),
    (hasChar Csv.dquote s), (hasChar Csv.comma s), (hasChar Csv.LF s), (hasChar Csv.CR s);
    reflexivity.
Qed.

Lemma safeCell_unquoted (s : string) :
  safeCell s = true -> needsQuoting s = false -> plainCell s = true.
Proof.
  unfold safeCell. intros Hsafe Hq. rewrite Hq in Hsafe. cbn [orb] in Hsafe.
  rewrite needsQuoting_chars in Hq.
  apply orb_false_elim in Hq as [Hq Hl]. apply orb_false_elim in Hq as [Hq Hc].
  rewrite plainCell_chars, Hq, Hc, Hl. cbn [negb andb]. exact Hsafe.
Qed.

Lemma scan_quoted (s rest : string) (rows : grid) (rw : row) (cur : string) :
  noLeadingQuote rest = true ->
  Csv.scan (doubleQuotes s +:+ dq +:+ rest) rows rw cur true
  = Csv.scan rest rows rw (cur +:+ s) false.
Proof.
  intros Hrest. revert cur. induction s as [|c s IH]; intros cur.
  - cbn [doubleQuotes]. unfold dq. unfold_append. cbn [Csv.scan].
    rewrite Ascii.eqb_refl, append_empty_r.
    destruct rest as [|next rest']; [reflexivity|].
    cbn [noLeadingQuote] in Hrest. apply negb_true_iff in Hrest. now rewrite Hrest.
  - cbn [doubleQuotes]. destruct (Ascii.eqb_spec c Csv.dquote) as [->|Hne].
    + unfold_append. cbn [Csv.scan]. rewrite Ascii.eqb_refl, IH.
      unfold Csv.snoc. now rewrite append_assoc.
    + unfold_append. cbn [Csv.scan]. apply Ascii.eqb_neq in Hne. rewrite Hne, IH.
      unfold Csv.snoc. now rewrite append_assoc.
Qed.

Lemma scan_csvCell (s rest : string) (rows : grid) (rw : row) (cur : string) :
  safeCell s = true ->
  noLeadingQuote rest = true ->
  Csv.scan (csvCell s +:+ rest) rows rw cur false = Csv.scan rest rows rw (cur +:+ s) false.
Proof.
  intros Hsafe Hrest. unfold csvCell. destruct (needsQuoting s) eqn:Hq.
  - rewrite !append_assoc. unfold dq at 1. unfold_append. cbn [Csv.scan].
    rewrite Ascii.eqb_refl. now apply scan_quoted.
  - apply scan_plainCell. now apply safeCell_unquoted.
Qed.

Lemma scan_csvRow (init : row) (lst rest : string) (rows : grid) (rw : row) :
  forallb safeCell (init ++ [lst]) = true ->
  noLeadingQuote rest = true ->
  Csv.scan (csvRow (init ++ [lst]) +:+ rest) rows rw "" false
  = Csv.scan rest rows (rw ++ init) lst false.
Proof.
  intros H Hrest. revert rw H. induction init as [|c init IH]; intros rw H.
  - cbn in H. apply andb_prop in H as [H _]. unfold csvRow. cbn [app map String.concat].
    rewrite (scan_csvCell _ _ _ _ _ H Hrest), append_nil. now rewrite app_nil_r.
  - change ((c :: init) ++ [lst]) with (c :: (init ++ [lst])) in *.
    cbn [forallb] in H. apply andb_prop in H as [Hc Hinit].
    unfold csvRow in *. cbn [map].
    destruct (init ++ [lst]) as [|y l] eqn:E; [now destruct init|].
    cbn [map] in *. rewrite concat_cons2, !append_assoc.
    rewrite (scan_csvCell _ _ _ _ _ Hc) by reflexivity.
    rewrite append_nil, scan_comma, IH by exact Hinit.
    now rewrite <- app_assoc.
Qed.

Lemma scan_valuesToCsv (g : grid) (rows : grid) :
  g <> [] -> safeCells g = true -> noEmptyRow g = true ->
  Csv.scan (valuesToCsv g) rows [] "" false = rows ++ g.
Proof.
  revert rows. induction g as [|r g IH]; intros rows Hne Hsafe Hrows; [congruence|].
  cbn [safeCells noEmptyRow forallb] in Hsafe, Hrows.
  apply andb_prop in Hsafe as [Hr Hg]. apply andb_prop in Hrows as [Hr0 Hg0].
  assert (r <> []) as Hrne by (now destruct r).
  destruct (exists_last Hrne) as (init & lst & ->).
  unfold valuesToCsv in *. fold csvRow in *. destruct g as [|r2 g].
  - cbn [map String.concat].
    rewrite <- (append_empty_r (csvRow (init ++ [lst]))).
    rewrite (scan_csvRow _ _ _ _ _ Hr) by reflexivity. reflexivity.
  - cbn [map]. rewrite concat_cons2.
    rewrite (scan_csvRow _ _ _ _ _ Hr) by reflexivity.
    rewrite scan_nl. cbn [app].
    change (csvRow r2 :: map (fun rw : row => csvRow rw) g)
      with (map (fun rw : row => csvRow rw) (r2 :: g)).
    rewrite IH by (assumption || discriminate). now rewrite <- app_assoc.
Qed.

(** X1. The CSV text that the Sheets API path makes of the sheet values
    parses back to those values, without their trailing blank rows, for
    every grid whose rows have at least one cell and whose cells hold a
    carriage return only together with a quote, a comma or a line feed:
    what is quoted round-trips, with its commas, quotes and line breaks. *)
Theorem parseCSV_valuesToCsv_round_trip (g : grid) :
  safeCells g = true ->
  noEmptyRow g = true ->
  Csv.parseCSV (valuesToCsv g) = Csv.trimTrailingRows g.
Proof.
  intros Hsafe Hrows. unfold Csv.parseCSV.
  destruct g as [|r g]; [reflexivity|].
  now rewrite scan_valuesToCsv.
Qed.

Lemma parseCSV_valuesToCsv_round_trip_witness :
  Csv.parseCSV
    (valuesToCsv [["Total, net"; "say " +:+ dq +:+ "hi" +:+ dq; "two" +:+ nl +:+ "lines"];
                  ["$1,234.50"; "x," +:+ crlf +:+ "y"; ""];
                  [" "]])
  = [["Total, net"; "say " +:+ dq +:+ "hi" +:+ dq; "two" +:+ nl +:+ "lines"];
     ["$1,234.50"; "x," +:+ crlf +:+ "y"; ""]].
Proof.
  rewrite parseCSV_valuesToCsv_round_trip; vm_compute; reflexivity.
Defined.

(** ** parseNumber: white space, and a dollar sign before the parentheses *)

Lemma allChars_app p (a b : string) :
  allChars p (a +:+ b) = allChars p a && allChars p b.
Proof.
  induction a as [|c a IH]; unfold_append; [reflexivity|].
  cbn [allChars]. now rewrite IH, andb_assoc.
Qed.

Lemma trimStart_app (s w : string) :
  Str.trimStart (s +:+ w)
  = if allChars Str.isWhiteSpace s then Str.trimStart w else Str.trimStart s +:+ w.
Proof.
  induction s as [|c s IH]; unfold_append; [reflexivity|].
  cbn [Str.trimStart allChars]. destruct (Str.isWhiteSpace c); [exact IH | reflexivity].
Qed.

Lemma trimEnd_white (w : string) :
  allChars Str.isWhiteSpace w = true -> Str.trimEnd w = "".
Proof.
  induction w as [|c w IH]; [reflexivity|].
  cbn [allChars Str.trimEnd]. intros H. apply andb_prop in H as [Hc Hw].
  now rewrite (IH Hw), Hc.
Qed.

Lemma trimEnd_app_white (s w : string) :
  allChars Str.isWhiteSpace w = true -> Str.trimEnd (s +:+ w) = Str.trimEnd s.
Proof.
  intros Hw. induction s as [|c s IH]; unfold_append.
  - now apply trimEnd_white.
  - cbn [Str.trimEnd]. now rewrite IH.
Qed.

Lemma trim_padded (w1 s w2 : string) :
  allChars Str.isWhiteSpace w1 = true ->
  allChars Str.isWhiteSpace w2 = true ->
  Str.trim (w1 +:+ s +:+ w2) = Str.trim s.
Proof.
  intros H1 H2. unfold Str.trim. rewrite trimStart_app, H1, trimStart_app.
  destruct (allChars Str.isWhiteSpace s) eqn:Hs.
  - now rewrite (trimStart_white _ H2), (trimStart_white _ Hs).
  - now apply trimEnd_app_white.
Qed.

(** X7. White space around the text never changes what [parseNumber]
    returns: spaces, tabs, line breaks and no-break spaces on either side
    of a cell are ignored. *)
Theorem parseNumber_ignores_surrounding_white_space (w1 s w2 : string) :
  allChars Str.isWhiteSpace w1 = true ->
  allChars Str.isWhiteSpace w2 = true ->
  parseNumber (RawString (w1 +:+ s +:+ w2)) = parseNumber (RawString s).
Proof.
  intros H1 H2. unfold parseNumber. now rewrite (trim_padded _ _ _ H1 H2).
Qed.

Lemma parseNumber_ignores_surrounding_white_space_witness :
  parseNumber (RawString ((" " +:+ nl) +:+ "($1,234.50)" +:+ String "160" (String "009" "")))
  = parseNumber (RawString "($1,234.50)").
Proof.
  apply parseNumber_ignores_surrounding_white_space; vm_compute; reflexivity.
Defined.

Lemma trimEnd_snoc (x : string) (c : ascii) :
  Str.isWhiteSpace c = false -> Str.trimEnd (x +:+ String c "") = x +:+ String c "".
Proof.
  intros Hc. induction x as [|a x IH]; unfold_append.
  - cbn [Str.trimEnd]. now rewrite Hc.
  - cbn [Str.trimEnd]. rewrite IH. destruct x; reflexivity.
Qed.

Lemma trim_dollar_wrapped (inner : string) :
  Str.trim ("$(" +:+ inner +:+ ")") = "$(" +:+ inner +:+ ")".
Proof.
  unfold Str.trim. unfold_append. cbn [Str.trimStart Str.isWhiteSpace].
  change (String "$" (String "(" (inner +:+ ")")))
    with (("$(" +:+ inner) +:+ String ")"%char "").
  now apply trimEnd_snoc.
Qed.

Lemma trim_wrapped (inner : string) :
  Str.trim ("(" +:+ inner +:+ ")") = "(" +:+ inner +:+ ")".
Proof.
  unfold Str.trim. unfold_append. cbn [Str.trimStart Str.isWhiteSpace].
  change (String "(" (inner +:+ ")")) with (("(" +:+ inner) +:+ String ")"%char "").
  now apply trimEnd_snoc.
Qed.

Lemma cleanNumberText_dollar_wrapped (inner : string) :
  cleanNumberText ("$(" +:+ inner +:+ ")") = innerNumberText inner.
Proof.
  rewrite <- cleanNumberText_wrapped. unfold cleanNumberText. unfold_append.
  cbn [Str.removeCommaDollar Ascii.eqb Bool.eqb orb]. reflexivity.
Qed.

(** X8. The accounting negative is seen only when the parenthesis is the
    first character: with a dollar sign before it the same amount comes
    out positive. For every inner text without line terminator, the text
    with the dollar sign outside gives the number [n] of the inner text,
    and the text with the parenthesis first gives [-n]. *)
Theorem parseNumber_dollar_before_parenthesis (inner : string) :
  noLineTerminator inner = true ->
  let n := StrNum.StringToNumber (innerNumberText inner) in
  parseNumber (RawString ("$(" +:+ inner +:+ ")"))
  = (if Num.isFinite n then Some n else None)
  /\ parseNumber (RawString ("(" +:+ inner +:+ ")"))
     = (if Num.isFinite n then Some (Num.neg n) else None).
Proof.
  intros Hinner n. unfold parseNumber.
  rewrite trim_dollar_wrapped, trim_wrapped.
  rewrite cleanNumberText_dollar_wrapped, cleanNumberText_wrapped, parenWrapped_wrapped, Hinner.
  fold n. split; reflexivity.
Qed.

Lemma parseNumber_dollar_before_parenthesis_witness :
  parseNumber (RawString ("$(" +:+ "1,234.50" +:+ ")"))
  = Some (Num.div (Num.ofZ 12345) (Num.ofZ 10))
  /\ parseNumber (RawString ("(" +:+ "1,234.50" +:+ ")"))
     = Some (Num.neg (Num.div (Num.ofZ 12345) (Num.ofZ 10))).
Proof.
  destruct (parseNumber_dollar_before_parenthesis "1,234.50") as [H1 H2];
    [vm_compute; reflexivity|].
  split; [rewrite H1 | rewrite H2]; vm_compute; reflexivity.
Defined.

(** ** findHeaderRow *)

Section FindHeaderRow.

Implicit Types (rr : row) (required : list string) (m : gmap string Z) (g : grid).

Lemma collectColumns_step rr header rest m :
  collectColumns rr (header :: rest) m
  = if negb (resolveColumn rr header =? -1)
    then collectColumns rr rest (setColumn header (resolveColumn rr header) m)
    else m.
Proof.
  cbn [collectColumns]. unfold resolveColumn.
  destruct (indexOf rr header =? -1) eqn:Hi; [|now rewrite Hi].
  destruct (isDateTime header); [|reflexivity].
  now destruct (findIndex isDateTime rr =? -1).
Qed.

Lemma existsb_eqb_elem (x : string) (l : list string) :
  existsb (String.eqb x) l = true <-> x ∈ l.
Proof.
  rewrite existsb_exists, list_elem_of_In. split.
  - intros (y & Hin & Heq). apply String.eqb_eq in Heq. now subst.
  - intros Hin. exists x. split; [exact Hin | apply String.eqb_refl].
Qed.

Lemma hasDuplicate_NoDup (l : list string) : hasDuplicate l = false <-> NoDup l.
Proof.
  induction l as [|x l IH]; [split; [constructor | reflexivity]|].
  cbn [hasDuplicate]. rewrite orb_false_iff, IH, NoDup_cons. split.
  - intros [Hx Hl]. split; [|exact Hl]. intros Hin.
    apply existsb_eqb_elem in Hin. congruence.
  - intros [Hx Hl]. split; [|exact Hl].
    destruct (existsb (String.eqb x) l) eqn:E; [|reflexivity].
    apply existsb_eqb_elem in E. contradiction.
Qed.

Lemma size_union_le (X Y : gset string) : (size (X ∪ Y) <= size X + size Y)%nat.
Proof.
  rewrite size_union_alt.
  pose proof (subseteq_size (Y ∖ X) Y) as H. specialize (H ltac:(set_solver)). lia.
Qed.

Lemma size_list_to_set_le (l : list string) :
  (size (list_to_set (C:=gset string) l) <= length l)%nat.
Proof.
  induction l as [|x l IH]; [reflexivity|].
  cbn [list_to_set length].
  etransitivity; [apply size_union_le|]. rewrite size_singleton. lia.
Qed.

Lemma hasDuplicate_size (l : list string) :
  hasDuplicate l = true -> (size (list_to_set (C:=gset string) l) < length l)%nat.
Proof.
  induction l as [|x l IH]; [discriminate|].
  cbn [hasDuplicate list_to_set length]. intros H. apply orb_prop in H as [Hx | Hl].
  - apply existsb_eqb_elem in Hx.
    replace ({[x]} ∪ list_to_set l) with (list_to_set (C:=gset string) l) by set_solver.
    pose proof (size_list_to_set_le l). lia.
  - specialize (IH Hl).
    pose proof (size_union_le {[x]} (list_to_set l)) as Hu.
    rewrite size_singleton in Hu. lia.
Qed.

Lemma hasPrototypeKey_elem required :
  hasPrototypeKey required = false <-> "__proto__" ∉ required.
Proof.
  unfold hasPrototypeKey. split.
  - intros H Hin. apply existsb_eqb_elem in Hin. congruence.
  - intros H. destruct (existsb (String.eqb "__proto__") required) eqn:E; [|reflexivity].
    apply existsb_eqb_elem in E. contradiction.
Qed.

Lemma setColumn_plain header idx m :
  header <> "__proto__" -> setColumn header idx m = <[header := idx]> m.
Proof. intros H. unfold setColumn. apply String.eqb_neq in H. now rewrite H. Qed.

Lemma setColumn_size header idx m : (size (setColumn header idx m) <= S (size m))%nat.
Proof.
  unfold setColumn. destruct (String.eqb header "__proto__"); [lia|].
  pose proof (map_size_insert header idx m) as Hs.
  destruct (m !! header); cbn in Hs; unfold id in Hs; lia.
Qed.

Lemma collectColumns_resolved rr required m :
  resolvesAll rr required = true ->
  hasPrototypeKey required = false ->
  dom (collectColumns rr required m) = dom m ∪ list_to_set required
  /\ (forall header, header ∈ required ->
        collectColumns rr required m !! header = Some (resolveColumn rr header))
  /\ (forall header, header ∉ required ->
        collectColumns rr required m !! header = m !! header).
Proof.
  revert m. induction required as [|x rest IH]; intros m H Hkey.
  - cbn [collectColumns list_to_set]. split; [set_solver|]. split; [|reflexivity].
    intros header Hin. now apply elem_of_nil in Hin.
  - cbn [resolvesAll forallb] in H. apply andb_prop in H as [Hx Hrest].
    apply hasPrototypeKey_elem in Hkey. apply not_elem_of_cons in Hkey as [Hxkey Hkey].
    apply hasPrototypeKey_elem in Hkey.
    rewrite collectColumns_step, Hx, setColumn_plain by congruence.
    destruct (IH (<[x := resolveColumn rr x]> m) Hrest Hkey) as (Hdom & Hin & Hout).
    split; [rewrite Hdom, dom_insert_L; cbn [list_to_set]; set_solver|]. split.
    + intros header Hh. destruct (decide (header ∈ rest)) as [Hr|Hr]; [now apply Hin|].
      apply elem_of_cons in Hh as [->|Hh]; [|contradiction].
      rewrite (Hout _ Hr). apply lookup_insert_eq.
    + intros header Hh. apply not_elem_of_cons in Hh as [Hne Hr].
      rewrite (Hout _ Hr). now apply lookup_insert_ne.
Qed.

Lemma collectColumns_unresolved rr required m :
  resolvesAll rr required = false ->
  (size (collectColumns rr required m) < size m + length required)%nat.
Proof.
  revert m. induction required as [|x rest IH]; intros m H; [discriminate|].
  cbn [resolvesAll forallb] in H. rewrite collectColumns_step.
  destruct (negb (resolveColumn rr x =? -1)) eqn:Hx; cbn [andb] in H.
  - specialize (IH (setColumn x (resolveColumn rr x) m) H).
    pose proof (setColumn_size x (resolveColumn rr x) m) as Hs.
    cbn [length]. lia.
  - cbn [length]. lia.
Qed.

Lemma collectColumns_size_le rr required m :
  (size (collectColumns rr required m) <= size m + length required)%nat.
Proof.
  revert m. induction required as [|y l IH]; intros m; [cbn; lia|].
  rewrite collectColumns_step. destruct (negb _); [|cbn [length]; lia].
  pose proof (IH (setColumn y (resolveColumn rr y) m)).
  pose proof (setColumn_size y (resolveColumn rr y) m). cbn [length]. lia.
Qed.

(** The header [__proto__] never becomes a key, so a list that has it
    gives fewer keys than headers. *)
Lemma collectColumns_prototype rr required m :
  hasPrototypeKey required = true ->
  (size (collectColumns rr required m) < size m + length required)%nat.
Proof.
  revert m. induction required as [|x rest IH]; intros m H; [discriminate|].
  rewrite collectColumns_step. destruct (negb _); [|cbn [length]; lia].
  unfold hasPrototypeKey in H. cbn [existsb] in H.
  destruct (String.eqb_spec "__proto__" x) as [<-|Hne].
  - change (setColumn "__proto__" (resolveColumn rr "__proto__") m) with m.
    pose proof (collectColumns_size_le rr rest m). cbn [length]. lia.
  - cbn [orb] in H. specialize (IH (setColumn x (resolveColumn rr x) m) H).
    pose proof (setColumn_size x (resolveColumn rr x) m). cbn [length]. lia.
Qed.

(** The record fills up on a row exactly when every header has a column
    there, no header occurs twice and none is [__proto__]. *)
Lemma collectColumns_full rr required :
  size (collectColumns rr required ∅) = length required
  <-> resolvesAll rr required = true
      /\ hasDuplicate required = false
      /\ hasPrototypeKey required = false.
Proof.
  split.
  - intros Hsize. destruct (resolvesAll rr required) eqn:Hres.
    + split; [reflexivity|]. split.
      * destruct (hasDuplicate required) eqn:Hdup; [|reflexivity].
        apply hasDuplicate_size in Hdup.
        pose proof (collectColumns_size rr required). lia.
      * destruct (hasPrototypeKey required) eqn:Hkey; [|reflexivity].
        apply (collectColumns_prototype rr required ∅) in Hkey.
        rewrite map_size_empty in Hkey. lia.
    + apply (collectColumns_unresolved rr required ∅) in Hres.
      rewrite map_size_empty in Hres. lia.
  - intros (Hres & Hdup & Hkey).
    destruct (collectColumns_resolved rr required ∅ Hres Hkey) as (Hdom & _ & _).
    rewrite <- size_dom, Hdom, dom_empty_L, (left_id_L ∅ (∪)).
    apply size_list_to_set. now apply hasDuplicate_NoDup.
Qed.

Lemma findHeaderRowFrom_none r g required :
  noHeaderRow required g = true -> findHeaderRowFrom r g required = None.
Proof.
  revert r. induction g as [|rr g IH]; intros r H; [reflexivity|].
  cbn [noHeaderRow forallb] in H. apply andb_prop in H as [Hrr Hg].
  apply negb_true_iff in Hrr. cbn [findHeaderRowFrom].
  destruct (Nat.eqb_spec (size (collectColumns (map normalize rr) required ∅))
              (length required)) as [Heq|_]; [|now apply IH].
  apply collectColumns_full in Heq as [Hres _]. congruence.
Qed.

Lemma findHeaderRowFrom_duplicate r g required :
  hasDuplicate required = true -> findHeaderRowFrom r g required = None.
Proof.
  intros Hdup. revert r. induction g as [|rr g IH]; intros r; [reflexivity|].
  cbn [findHeaderRowFrom].
  destruct (Nat.eqb_spec (size (collectColumns (map normalize rr) required ∅))
              (length required)) as [Heq|_]; [|now apply IH].
  apply collectColumns_full in Heq as (_ & Hnd & _). congruence.
Qed.


Lemma findHeaderRowFrom_inv r g required h :
  findHeaderRowFrom r g required = Some h ->
  exists (pre : grid) (hdr : row) (post : grid),
    g = pre ++ hdr :: post
    /\ rowIndex h = r + Z.of_nat (length pre)
    /\ colIndexByHeader h = collectColumns (map normalize hdr) required ∅
    /\ resolvesAll (map normalize hdr) required = true
    /\ hasDuplicate required = false
    /\ hasPrototypeKey required = false
    /\ noHeaderRow required pre = true.
Proof.
  revert r. induction g as [|rr g IH]; intros r H; [discriminate|].
  cbn [findHeaderRowFrom] in H.
  destruct (Nat.eqb_spec (size (collectColumns (map normalize rr) required ∅))
              (length required)) as [Heq|Hne].
  - injection H as <-. apply collectColumns_full in Heq as (Hres & Hdup & Hkey).
    exists [], rr, g. cbn [rowIndex colIndexByHeader length]. repeat split; try assumption. lia.
  - destruct (IH _ H) as (pre & hdr & post & -> & Hidx & Hcols & Hres & Hdup & Hkey & Hpre).
    exists (rr :: pre), hdr, post. repeat split; try assumption.
    + rewrite Hidx. cbn [length]. lia.
    + unfold noHeaderRow in *. cbn [forallb]. rewrite Hpre, andb_true_r. apply negb_true_iff.
      destruct (resolvesAll (map normalize rr) required) eqn:E; [|reflexivity].
      exfalso. apply Hne. now apply collectColumns_full.
Qed.

End FindHeaderRow.

Lemma indexOfFrom_found (i : Z) (rr : row) (x : string) :
  0 <= i ->
  indexOfFrom i rr x = -1
  \/ exists k : nat, indexOfFrom i rr x = i + Z.of_nat k /\ nth_error rr k = Some x.
Proof.
  revert i. induction rr as [|y rr IH]; intros i Hi; [now left|].
  cbn [indexOfFrom]. destruct (String.eqb_spec y x) as [->|Hne].
  - right. exists 0%nat. split; [lia | reflexivity].
  - destruct (IH (i + 1) ltac:(lia)) as [H | (k & H & Hk)]; [now left|].
    right. exists (S k). split; [lia | exact Hk].
Qed.

Lemma findIndexFrom_found (i : Z) (p : string -> bool) (rr : row) :
  0 <= i ->
  findIndexFrom i p rr = -1
  \/ exists (k : nat) (y : string),
       findIndexFrom i p rr = i + Z.of_nat k /\ nth_error rr k = Some y /\ p y = true.
Proof.
  revert i. induction rr as [|y rr IH]; intros i Hi; [now left|].
  cbn [findIndexFrom]. destruct (p y) eqn:Hy.
  - right. exists 0%nat, y. split; [lia|]. now split.
  - destruct (IH (i + 1) ltac:(lia)) as [H | (k & z & H & Hk & Hz)]; [now left|].
    right. exists (S k), z. split; [lia|]. now split.
Qed.

Lemma cellAt_of_nat (rr : row) (k : nat) : cellAt rr (Z.of_nat k) = nth_error rr k.
Proof.
  unfold cellAt. destruct (Z.ltb_spec (Z.of_nat k) 0) as [H|_]; [lia|].
  now rewrite Nat2Z.id.
Qed.

(** A resolved column is inside the row, and its cell is the header or,
    for a header with date and time, a cell with date and time. *)
Lemma resolveColumn_sound (rr : row) (header : string) :
  (resolveColumn rr header =? -1) = false ->
  exists cell : string,
    cellAt rr (resolveColumn rr header) = Some cell
    /\ (cell = header \/ (isDateTime header = true /\ isDateTime cell = true)).
Proof.
  unfold resolveColumn, indexOf, findIndex. intros H.
  destruct (indexOfFrom_found 0 rr header ltac:(lia)) as [Hi | (k & Hi & Hk)].
  - rewrite Hi in *. cbn [Z.eqb Pos.eqb] in *.
    destruct (isDateTime header) eqn:Hdt; [|discriminate].
    destruct (findIndexFrom_found 0 isDateTime rr ltac:(lia)) as [Hf | (k & y & Hf & Hk & Hy)].
    + rewrite Hf in H. discriminate.
    + rewrite Hf, Z.add_0_l, cellAt_of_nat. exists y. split; [exact Hk|]. now right.
  - rewrite Hi, Z.add_0_l. destruct (Z.eqb_spec (Z.of_nat k) (-1)) as [E|_]; [lia|].
    rewrite cellAt_of_nat. exists header. split; [exact Hk | now left].
Qed.

Lemma cellAt_map_normalize (rr : row) (i : Z) (cell' : string) :
  cellAt (map normalize rr) i = Some cell' ->
  exists cell, cellAt rr i = Some cell /\ normalize cell = cell'.
Proof.
  unfold cellAt. destruct (i <? 0); [discriminate|].
  rewrite nth_error_map. destruct (nth_error rr (Z.to_nat i)) as [cell|]; [|discriminate].
  cbn. intros [= <-]. now exists cell.
Qed.

Lemma cellAtRow_app (pre : grid) (hdr : row) (post : grid) :
  cellAtRow (pre ++ hdr :: post) (Z.of_nat (length pre)) = Some hdr.
Proof.
  unfold cellAtRow. destruct (Z.ltb_spec (Z.of_nat (length pre)) 0) as [H|_]; [lia|].
  rewrite Nat2Z.id, nth_error_app2 by lia. now rewrite Nat.sub_diag.
Qed.

(** X9. A list of required headers in which a text occurs twice, after
    trimming and lower-casing, is never found, on any grid: the record
    of columns has one key per distinct text and is compared with the
    length of the list. *)
Theorem findHeaderRow_repeated_header_never_found (requiredHeaders : list string) (g : grid) :
  hasDuplicate (map normalize requiredHeaders) = true ->
  findHeaderRow g requiredHeaders = None.
Proof. intros H. unfold findHeaderRow. now apply findHeaderRowFrom_duplicate. Qed.

Lemma findHeaderRow_repeated_header_never_found_witness :
  findHeaderRow [["Price"; "price"; "Qty"]] ["Price"; "Qty"; " PRICE "] = None.
Proof.
  apply findHeaderRow_repeated_header_never_found. vm_compute. reflexivity.
Defined.



(** The header [__proto__] is never a key of the record, so a list with
    it is not found even on a row that has it. *)
Lemma findHeaderRow_prototype_sample :
  findHeaderRow [["__proto__"; "Qty"]] ["__proto__"; "Qty"] = None
  /\ size (collectColumns ["__proto__"; "qty"] ["__proto__"; "qty"] ∅) = 1%nat.
Proof. split; vm_compute; reflexivity. Qed.

(** X11. When no row has a column for every required header,
    [findHeaderRow] returns nothing; the empty grid is such a grid. *)
Theorem findHeaderRow_no_complete_row (g : grid) (requiredHeaders : list string) :
  noHeaderRow (map normalize requiredHeaders) g = true ->
  findHeaderRow g requiredHeaders = None.
Proof. intros H. unfold findHeaderRow. now apply findHeaderRowFrom_none. Qed.

Lemma findHeaderRow_no_complete_row_witness :
  findHeaderRow [["Quantity"; "Open Price"]; ["Current Price"; "Unrealized Gain"]]
    openPositionHeaders = None
  /\ findHeaderRow [] openPositionHeaders = None.
Proof.
  split; apply findHeaderRow_no_complete_row; vm_compute; reflexivity.
Defined.

(** X12. What [findHeaderRow] returns points into the grid: the row index
    is the index of a row, the record has exactly one entry per required
    header, and each entry is the index of a cell of that row which,
    trimmed and lower-cased, is the header itself or, for a header with
    date and time, a text with date and time. *)
Theorem findHeaderRow_result_in_grid (g : grid) (requiredHeaders : list string) (h : HeaderRow) :
  findHeaderRow g requiredHeaders = Some h ->
  exists hdr : row,
    cellAtRow g (rowIndex h) = Some hdr
    /\ size (colIndexByHeader h) = length requiredHeaders
    /\ forall header, header ∈ map normalize requiredHeaders ->
         exists (i : Z) (cell : string),
           colIndexByHeader h !! header = Some i
           /\ cellAt hdr i = Some cell
           /\ (normalize cell = header
               \/ (isDateTime header = true /\ isDateTime (normalize cell) = true)).
Proof.
  unfold findHeaderRow. intros H.
  apply findHeaderRowFrom_inv in H
    as (pre & hdr & post & -> & Hidx & Hcols & Hres & Hdup & Hkey & _).
  exists hdr. rewrite Hidx, Z.add_0_l. split; [apply cellAtRow_app|]. split.
  - rewrite Hcols, <- (length_map normalize requiredHeaders).
    now apply collectColumns_full.
  - intros header Hin.
    destruct (collectColumns_resolved (map normalize hdr) _ ∅ Hres Hkey) as (_ & Hlook & _).
    assert ((resolveColumn (map normalize hdr) header =? -1) = false) as Hcol.
    { unfold resolvesAll in Hres. rewrite forallb_forall in Hres.
      apply list_elem_of_In in Hin. apply Hres in Hin. now apply negb_true_iff in Hin. }
    destruct (resolveColumn_sound _ _ Hcol) as (cell' & Hcell' & Hmatch).
    destruct (cellAt_map_normalize _ _ _ Hcell') as (cell & Hcell & <-).
    exists (resolveColumn (map normalize hdr) header), cell.
    split; [rewrite Hcols; now apply Hlook|]. split; [exact Hcell | exact Hmatch].
Qed.

Lemma findHeaderRow_result_in_grid_witness :
  exists hdr : row,
    cellAtRow (Csv.parseCSV positionsSheet) 0 = Some hdr
    /\ exists (i : Z) (cell : string),
         cellAt hdr i = Some cell /\ normalize cell = "current price".
Proof.
  destruct (findHeaderRow (Csv.parseCSV positionsSheet) openPositionHeaders) as [h|] eqn:E;
    [|vm_compute in E; discriminate].
  destruct (findHeaderRow_result_in_grid _ _ _ E) as (hdr & Hrow & _ & Hcols).
  assert (rowIndex h = 0) as Hidx by (vm_compute in E; injection E as <-; reflexivity).
  rewrite Hidx in Hrow. exists hdr. split; [exact Hrow|].
  destruct (Hcols "current price") as (i & cell & _ & Hcell & [Hn | [Hdt _]]).
  - apply list_elem_of_In. vm_compute. repeat (first [left; reflexivity | right]).
  - exists i, cell. split; [exact Hcell | exact Hn].
  - vm_compute in Hdt. discriminate Hdt.
Defined.

(** ** parseOpenPositions *)

Lemma parseNumber_finite (r : raw) (n : num) :
  parseNumber r = Some n -> Num.isFinite n = true.
Proof.
  destruct r as [| |x|str]; cbn [parseNumber]; try discriminate.
  - destruct (Num.isFinite x) eqn:E; [|discriminate]. now intros [= <-].
  - destruct (Str.isEmpty _); [discriminate|].
    destruct (Num.isFinite _) eqn:E; [|discriminate].
    destruct (Str.parenWrapped _); intros [= <-]; [now rewrite isFinite_neg | exact E].
Qed.

Lemma findHeaderRowFrom_open_none r (g : grid) :
  noOpenHeaders g = true -> findHeaderRowFrom r g openPositionHeaders = None.
Proof.
  revert r. induction g as [|rr g IH]; intros r H; [reflexivity|].
  cbn [noOpenHeaders forallb] in H. apply andb_prop in H as [Hrr Hg].
  apply negb_true_iff in Hrr. cbn [findHeaderRowFrom].
  pose proof (collectColumns_open rr) as Hc. cbv zeta in Hc. rewrite Hrr in Hc.
  destruct (Nat.eqb_spec (size (collectColumns (map normalize rr) openPositionHeaders ∅))
              (length openPositionHeaders)) as [Heq|_].
  - rewrite Heq in Hc. cbn in Hc. lia.
  - now apply IH.
Qed.

(** X13. Without a row that names quantity, open price, current price
    and unrealized gain, the extractor returns no position and the total
    0, whatever else the grid holds. *)
Theorem parseOpenPositions_without_header (g : grid) :
  noOpenHeaders g = true -> parseOpenPositions g = ([], Num.zero).
Proof.
  intros H. unfold parseOpenPositions, findHeaderRow.
  now rewrite openHeaders_normalized, (findHeaderRowFrom_open_none _ _ H).
Qed.

Lemma parseOpenPositions_without_header_witness :
  parseOpenPositions [["Quantity"; "Open Price"; "Current Price"]; ["10"; "5"; "7"; "20"]]
  = ([], Num.zero).
Proof. apply parseOpenPositions_without_header. vm_compute. reflexivity. Defined.

Lemma sumFrom_app (total : num) (l1 l2 : list num) :
  sumFrom total (l1 ++ l2) = sumFrom (sumFrom total l1) l2.
Proof. unfold sumFrom. apply fold_left_app. Qed.

Lemma openPositionsLoop_step (start r : Z) (rr : row) (rest : grid)
    (qCol oCol cCol uCol : option Z) (positions : list Position) (total : num) :
  let q := parseNumber (rawOf (cellAtCol rr qCol)) in
  let o := parseNumber (rawOf (cellAtCol rr oCol)) in
  let cp := parseNumber (rawOf (cellAtCol rr cCol)) in
  let u := parseNumber (rawOf (cellAtCol rr uCol)) in
  let unreal := unrealizedOf (default Num.zero q) o cp u in
  openPositionsLoop start r (rr :: rest) qCol oCol cCol uCol positions total
  = if allAbsent (q, o, cp, u) then
      if start + 2 <? r then (positions, total)
      else openPositionsLoop start (r + 1) rest qCol oCol cCol uCol positions total
    else
      openPositionsLoop start (r + 1) rest qCol oCol cCol uCol
        (positions ++ [mkPosition (default Num.zero q) o cp (Some unreal)])
        (Num.add total unreal).
Proof.
  cbv zeta. cbn [openPositionsLoop].
  destruct (parseNumber (rawOf (cellAtCol rr qCol)));
    destruct (parseNumber (rawOf (cellAtCol rr oCol)));
    destruct (parseNumber (rawOf (cellAtCol rr cCol)));
    destruct (parseNumber (rawOf (cellAtCol rr uCol))); reflexivity.
Qed.

Lemma parsed_cell_finite (cell : option string) :
  match parseNumber (rawOf cell) with
  | Some n => Num.isFinite n
  | None => true
  end = true.
Proof.
  destruct (parseNumber (rawOf cell)) as [n|] eqn:E; [|reflexivity].
  now apply parseNumber_finite in E.
Qed.

Lemma openPositionsLoop_invariant (start r : Z) (rows : grid) (qCol oCol cCol uCol : option Z)
    (positions : list Position) (total : num) :
  exists new : list Position,
    openPositionsLoop start r rows qCol oCol cCol uCol positions total
    = (positions ++ new, sumFrom total (map gainOf new))
    /\ (length new <= length rows)%nat
    /\ forallb wellFormedPosition new = true.
Proof.
  revert r positions total. induction rows as [|rr rest IH]; intros r positions total.
  - exists []. cbn. now rewrite app_nil_r.
  - rewrite openPositionsLoop_step. cbv zeta.
    destruct (allAbsent _).
    + destruct (start + 2 <? r).
      * exists []. cbn. rewrite app_nil_r. split; [reflexivity|]. split; [lia | reflexivity].
      * destruct (IH (r + 1) positions total) as (new & -> & Hlen & Hwf).
        exists new. split; [reflexivity|]. split; [cbn [length]; lia | exact Hwf].
    + match goal with
      | |- context [openPositionsLoop _ _ _ _ _ _ _ (positions ++ [?p]) ?t] =>
          destruct (IH (r + 1) (positions ++ [p]) t) as (new & -> & Hlen & Hwf);
          exists (p :: new)
      end.
      rewrite <- app_assoc. split; [reflexivity|]. split; [cbn [length]; lia|].
      cbn [forallb]. rewrite Hwf, andb_true_r.
      unfold wellFormedPosition. cbn [quantity openPrice currentPrice unrealizedGain isSomeB].
      rewrite andb_true_r, (parsed_cell_finite (cellAtCol rr oCol)),
        (parsed_cell_finite (cellAtCol rr cCol)), !andb_true_r.
      pose proof (parsed_cell_finite (cellAtCol rr qCol)) as Hq.
      now destruct (parseNumber (rawOf (cellAtCol rr qCol))).
Qed.

(** X14. The total that [parseOpenPositions] returns is the sum, in
    order and starting from 0, of the gains recorded in the positions it
    returns, and there are at most as many positions as rows in the grid. *)
Theorem parseOpenPositions_total_is_sum_of_gains (g : grid) :
  snd (parseOpenPositions g) = sumFrom Num.zero (map gainOf (fst (parseOpenPositions g)))
  /\ (length (fst (parseOpenPositions g)) <= length g)%nat.
Proof.
  unfold parseOpenPositions. destruct (findHeaderRow g openPositionHeaders) as [h|].
  - match goal with
    | |- context [openPositionsLoop ?s ?r ?rows ?a ?b ?c ?d ?ps ?t] =>
        destruct (openPositionsLoop_invariant s r rows a b c d ps t) as (new & -> & Hlen & _)
    end.
    cbn [fst snd app]. split; [reflexivity|].
    rewrite length_drop in Hlen. lia.
  - cbn. split; [reflexivity | lia].
Qed.

(** X15. Every position returned has a finite quantity, finite prices
    where it has prices, and a gain: a cell that does not normalize to a
    finite number never reaches a position. *)
Theorem parseOpenPositions_positions_well_formed (g : grid) :
  forallb wellFormedPosition (fst (parseOpenPositions g)) = true.
Proof.
  unfold parseOpenPositions. destruct (findHeaderRow g openPositionHeaders) as [h|].
  - match goal with
    | |- context [openPositionsLoop ?s ?r ?rows ?a ?b ?c ?d ?ps ?t] =>
        destruct (openPositionsLoop_invariant s r rows a b c d ps t) as (new & -> & _ & Hwf)
    end.
    exact Hwf.
  - reflexivity.
Qed.

(** ** parseJournalTotals *)

Lemma cellAt_minus_one (rr : row) : cellAt rr (-1) = None.
Proof. reflexivity. Qed.

Lemma isEmpty_eqb (s : string) : Str.isEmpty s = String.eqb s "".
Proof. now destruct s. Qed.

Lemma journalFallbackSum_sums (rows : grid) (receivedCol paidCol : Z) (acc : JournalTotals) :
  journalFallbackSum rows receivedCol paidCol acc
  = mkJournalTotals
      (sumFrom (creditsTotal acc) (columnNumbers receivedCol rows))
      (sumFrom (debitsTotal acc) (columnNumbers paidCol rows))
      (jTrades acc + countTrades receivedCol paidCol rows)
      (jLastActivity acc).
Proof.
  revert acc. induction rows as [|rr rest IH]; intros acc.
  - unfold countTrades. cbn. rewrite Z.add_0_r. now destruct acc.
  - cbn [journalFallbackSum]. rewrite IH.
    cbn [creditsTotal debitsTotal jTrades jLastActivity columnNumbers].
    unfold countTrades. cbn [List.filter]. unfold countsAsTrade at 2, blankCell.
    f_equal.
    + destruct (Z.eqb_spec receivedCol (-1)) as [->|_]; cbn [negb]; [reflexivity|].
      now destruct (parseNumber (rawOf (cellAt rr receivedCol))).
    + destruct (Z.eqb_spec paidCol (-1)) as [->|_]; cbn [negb]; [reflexivity|].
      now destruct (parseNumber (rawOf (cellAt rr paidCol))).
    + rewrite isEmpty_eqb.
      destruct (cellAt rr receivedCol) as [s|];
        [destruct (String.eqb (Str.trim s) "")
        |destruct (String.eqb (Str.trim (default "" (cellAt rr paidCol))) "")];
        cbn [negb length]; lia.
Qed.

Lemma journalFallback_none (g : grid) :
  noJournalHeader g = true -> journalFallback g = journalStart.
Proof.
  induction g as [|rr g IH]; [reflexivity|].
  cbn [noJournalHeader forallb]. intros H. apply andb_prop in H as [Hrr Hg].
  apply negb_true_iff in Hrr. unfold hasJournalHeader in Hrr.
  cbn [journalFallback]. rewrite Hrr. now apply IH.
Qed.

Lemma journalFallback_first (pre : grid) (hdr : row) (body : grid) :
  noJournalHeader pre = true ->
  hasJournalHeader hdr = true ->
  journalFallback (pre ++ hdr :: body)
  = journalFallbackSum body (receivedColumn hdr) (paidColumn hdr) journalStart.
Proof.
  intros Hpre Hhdr. induction pre as [|rr pre IH].
  - cbn [app journalFallback]. unfold hasJournalHeader in Hhdr. now rewrite Hhdr.
  - cbn [noJournalHeader forallb] in Hpre. apply andb_prop in Hpre as [Hrr Hrest].
    apply negb_true_iff in Hrr. unfold hasJournalHeader in Hrr.
    cbn [app journalFallback]. rewrite Hrr. now apply IH.
Qed.

Lemma countTrades_bounds (receivedCol paidCol : Z) (body : grid) :
  0 <= countTrades receivedCol paidCol body <= Z.of_nat (length body).
Proof.
  unfold countTrades. pose proof (filter_length_le (countsAsTrade receivedCol paidCol) body). lia.
Qed.

(** X16. What the journal extractor computes: below the first row that
    names the received or the paid column, the credits are the sum of
    the numbers in the received column, the debits the sum of the numbers
    in the paid column, each added top to bottom from 0, and the trades
    are the rows whose received cell (their paid cell, where the row has
    no received cell) has text; the trades number between 0 and the
    count of rows below the header, and no last activity is reported. *)
Theorem parseJournalTotals_sums_below_first_header (pre : grid) (hdr : row) (body : grid) :
  noJournalHeader pre = true ->
  hasJournalHeader hdr = true ->
  let j := parseJournalTotals (pre ++ hdr :: body) in
  creditsTotal j = sumFrom Num.zero (columnNumbers (receivedColumn hdr) body)
  /\ debitsTotal j = sumFrom Num.zero (columnNumbers (paidColumn hdr) body)
  /\ jTrades j = countTrades (receivedColumn hdr) (paidColumn hdr) body
  /\ 0 <= jTrades j <= Z.of_nat (length body)
  /\ jLastActivity j = None.
Proof.
  intros Hpre Hhdr. cbv zeta.
  rewrite parseJournalTotals_fallback, (journalFallback_first _ _ _ Hpre Hhdr),
    journalFallbackSum_sums.
  cbn [creditsTotal debitsTotal jTrades jLastActivity journalStart Z.add].
  repeat split; try reflexivity; apply countTrades_bounds.
Qed.

Lemma parseJournalTotals_sums_below_first_header_witness :
  let j := parseJournalTotals
             ([["General Journal"]] ++
              ["Action"; "Total $ Received"; "Total $ Paid"] ::
              [["SELL"; "$1,000"; ""];
               ["BUY"; ""; "400"];
               ["SELL"; "n/a"; "(25)"]]) in
  creditsTotal j = Num.ofZ 1000 /\ debitsTotal j = Num.ofZ 375 /\ jTrades j = 2.
Proof.
  destruct (parseJournalTotals_sums_below_first_header
              [["General Journal"]] ["Action"; "Total $ Received"; "Total $ Paid"]
              [["SELL"; "$1,000"; ""]; ["BUY"; ""; "400"]; ["SELL"; "n/a"; "(25)"]])
    as (Hc & Hd & Ht & _); try (vm_compute; reflexivity).
  cbv zeta. rewrite Hc, Hd, Ht. repeat split; vm_compute; reflexivity.
Defined.

(** X17. Without a row that names the received or the paid column, the
    journal extractor returns zero credits, zero debits, no trade and no
    last activity. *)
Theorem parseJournalTotals_without_header (g : grid) :
  noJournalHeader g = true -> parseJournalTotals g = journalStart.
Proof. intros H. rewrite parseJournalTotals_fallback. now apply journalFallback_none. Qed.

Lemma parseJournalTotals_without_header_witness :
  parseJournalTotals [["Action"; "Received"; "Paid"]; ["SELL"; "1000"; ""]]
  = mkJournalTotals Num.zero Num.zero 0 None.
Proof. apply parseJournalTotals_without_header. vm_compute. reflexivity. Defined.

Lemma countTrades_app (receivedCol paidCol : Z) (b1 b2 : grid) :
  countTrades receivedCol paidCol (b1 ++ b2)
  = countTrades receivedCol paidCol b1 + countTrades receivedCol paidCol b2.
Proof. unfold countTrades. rewrite List.filter_app, length_app. lia. Qed.

Lemma columnNumbers_app (col : Z) (b1 b2 : grid) :
  columnNumbers col (b1 ++ b2) = columnNumbers col b1 ++ columnNumbers col b2.
Proof.
  induction b1 as [|rr b1 IH]; [reflexivity|].
  cbn [app columnNumbers]. rewrite IH. now destruct (parseNumber _).
Qed.

(** X18. A row whose received cell is there but blank is not a trade,
    whatever its paid cell holds: with the row or without it the journal
    has the same number of trades, while an amount in its paid cell is
    still part of the debits. *)
Theorem parseJournalTotals_blank_received_is_no_trade
    (pre : grid) (hdr : row) (body1 : grid) (rr : row) (body2 : grid) (received : string) :
  noJournalHeader pre = true ->
  hasJournalHeader hdr = true ->
  cellAt rr (receivedColumn hdr) = Some received ->
  blankCell received = true ->
  jTrades (parseJournalTotals (pre ++ hdr :: body1 ++ rr :: body2))
  = jTrades (parseJournalTotals (pre ++ hdr :: body1 ++ body2))
  /\ debitsTotal (parseJournalTotals (pre ++ hdr :: body1 ++ rr :: body2))
     = sumFrom Num.zero
         (columnNumbers (paidColumn hdr) body1
          ++ columnNumbers (paidColumn hdr) [rr]
          ++ columnNumbers (paidColumn hdr) body2).
Proof.
  intros Hpre Hhdr Hcell Hblank.
  rewrite !parseJournalTotals_fallback, !(journalFallback_first _ _ _ Hpre Hhdr),
    !journalFallbackSum_sums.
  cbn [creditsTotal debitsTotal jTrades jLastActivity journalStart Z.add]. split.
  - assert (countTrades (receivedColumn hdr) (paidColumn hdr) [rr] = 0) as Hrr.
    { unfold countTrades. cbn [List.filter]. unfold countsAsTrade.
      now rewrite Hcell, Hblank. }
    change (rr :: body2) with ([rr] ++ body2). rewrite !countTrades_app, Hrr. lia.
  - f_equal. rewrite columnNumbers_app. f_equal.
    change (rr :: body2) with ([rr] ++ body2). apply columnNumbers_app.
Qed.

Lemma parseJournalTotals_blank_received_is_no_trade_witness :
  jTrades (parseJournalTotals
             ([] ++ ["Total $ Received"; "Total $ Paid"] ::
              [["100"; ""]] ++ [" "; "400"] :: [["50"; ""]]))
  = 2
  /\ debitsTotal (parseJournalTotals
                    ([] ++ ["Total $ Received"; "Total $ Paid"] ::
                     [["100"; ""]] ++ [" "; "400"] :: [["50"; ""]]))
     = Num.ofZ 400.
Proof.
  pose proof (parseJournalTotals_blank_received_is_no_trade
                [] ["Total $ Received"; "Total $ Paid"] [["100"; ""]] [" "; "400"]
                [["50"; ""]] " "
                ltac:(vm_compute; reflexivity) ltac:(vm_compute; reflexivity)
                ltac:(vm_compute; reflexivity) ltac:(vm_compute; reflexivity)) as [Ht Hd].
  rewrite Ht, Hd. split; vm_compute; reflexivity.
Defined.

(** ** computePlayerStatsFromSheetCSV *)

Lemma positive_finite_shape (c : num) :
  Num.isFinite c = true -> Num.ltb Num.zero c = true ->
  exists m e, c = S754_finite false m e.
Proof.
  destruct c as [s|s| |s m e]; cbn; try discriminate.
  destruct s; [discriminate|]. intros _ _. now exists m, e.
Qed.

Lemma effectiveCapital_cases (c : num) :
  (Num.isFinite c && Num.ltb Num.zero c = true /\ effectiveCapital c = c)
  \/ (Num.isFinite c && Num.ltb Num.zero c = false /\ effectiveCapital c = Num.ofZ 10000).
Proof.
  unfold effectiveCapital, defaultCapital.
  destruct (Num.isFinite c && Num.ltb Num.zero c); [now left | now right].
Qed.

(** X19. The capital that the statistics are computed with is always a
    finite number above zero, whatever is supplied, so the return is
    never a division by zero, by a negative number or by NaN; and a
    capital so fixed is left as it is. *)
Theorem effectiveCapital_finite_and_positive (c : num) :
  Num.isFinite (effectiveCapital c) = true
  /\ Num.ltb Num.zero (effectiveCapital c) = true
  /\ effectiveCapital (effectiveCapital c) = effectiveCapital c.
Proof.
  assert (Num.isFinite (effectiveCapital c) && Num.ltb Num.zero (effectiveCapital c) = true) as H.
  { destruct (effectiveCapital_cases c) as [[Hc ->] | [_ ->]]; [exact Hc | vm_compute; reflexivity]. }
  pose proof H as H'. apply andb_prop in H' as [Hf Hp].
  split; [exact Hf|]. split; [exact Hp|].
  unfold effectiveCapital at 1. now rewrite H.
Qed.

Lemma effectiveCapital_shape (c : num) :
  exists m e, effectiveCapital c = S754_finite false m e.
Proof.
  destruct (effectiveCapital_cases c) as [[Hc ->] | [_ ->]].
  - apply andb_prop in Hc as [Hf Hp]. now apply positive_finite_shape.
  - vm_compute. now eexists _, _.
Qed.

(** X20. A sheet in which nothing is found, no label, no open-positions
    header and no received or paid column, gives the record of a player
    who has not traded: every amount is 0, the return is 0, there is no
    trade, and the equity is the capital the statistics are computed
    with. The empty text is such a sheet. *)
Theorem computeStats_nothing_found (args : Args) :
  let g := Csv.parseCSV (csvText args) in
  noLabelInGrid realizedLabel g = true ->
  noOpenHeaders g = true ->
  noJournalHeader g = true ->
  computePlayerStatsFromSheetCSV args
  = mkPlayerStats (argName args) Num.zero Num.zero Num.zero Num.zero
      (effectiveCapital (initialCapital args)) 0 None (mkDetails Num.zero Num.zero).
Proof.
  intros g Hlabel Hopen Hjournal. unfold computePlayerStatsFromSheetCSV. fold g.
  change "Realized P/L:" with realizedLabel.
  rewrite (findCellAdjacentToLabel_none _ _ Hlabel).
  unfold parseOpenPositions, findHeaderRow.
  rewrite openHeaders_normalized, (findHeaderRowFrom_open_none _ _ Hopen).
  rewrite parseJournalTotals_fallback, (journalFallback_none _ Hjournal).
  cbn [journalStart creditsTotal debitsTotal jTrades jLastActivity].
  destruct (effectiveCapital_shape (initialCapital args)) as (m & e & ->).
  reflexivity.
Qed.

Lemma computeStats_nothing_found_witness :
  computePlayerStatsFromSheetCSV (mkArgs "p" "" Num.NaN)
  = mkPlayerStats "p" Num.zero Num.zero Num.zero Num.zero (Num.ofZ 10000) 0 None
      (mkDetails Num.zero Num.zero)
  /\ equity (computePlayerStatsFromSheetCSV (mkArgs "q" ("Name,Notes" +:+ nl +:+ "q,none yet") (Num.ofZ 500)))
     = Num.ofZ 500.
Proof.
  split.
  - rewrite (computeStats_nothing_found (mkArgs "p" "" Num.NaN)); vm_compute; reflexivity.
  - rewrite (computeStats_nothing_found
               (mkArgs "q" ("Name,Notes" +:+ nl +:+ "q,none yet") (Num.ofZ 500)));
      vm_compute; reflexivity.
Defined.

(** ** CONFIG *)

Lemma trimStart_startsClean (s : string) : startsClean (Str.trimStart s) = true.
Proof.
  induction s as [|c s IH]; [reflexivity|].
  cbn [Str.trimStart]. destruct (Str.isWhiteSpace c) eqn:E; [exact IH|].
  cbn [startsClean]. now rewrite E.
Qed.

Lemma trimStart_fixed (s : string) : startsClean s = true -> Str.trimStart s = s.
Proof.
  destruct s as [|c s]; [reflexivity|]. cbn [startsClean Str.trimStart].
  intros H. apply negb_true_iff in H. now rewrite H.
Qed.

Lemma trimEnd_startsClean (s : string) :
  startsClean s = true -> startsClean (Str.trimEnd s) = true.
Proof.
  destruct s as [|c s]; [reflexivity|]. cbn [startsClean Str.trimEnd]. intros H.
  destruct (Str.trimEnd s); cbn [startsClean]; [|exact H].
  apply negb_true_iff in H. rewrite H. cbn [startsClean]. now rewrite H.
Qed.

Lemma trimEnd_idempotent (s : string) : Str.trimEnd (Str.trimEnd s) = Str.trimEnd s.
Proof.
  induction s as [|c s IH]; [reflexivity|].
  cbn [Str.trimEnd]. destruct (Str.trimEnd s) as [|a r] eqn:E.
  - destruct (Str.isWhiteSpace c) eqn:Hc; [reflexivity|]. cbn [Str.trimEnd]. now rewrite Hc.
  - cbn [Str.trimEnd] in *. now rewrite IH.
Qed.

Lemma trim_idempotent (s : string) : Str.trim (Str.trim s) = Str.trim s.
Proof.
  unfold Str.trim.
  rewrite (trimStart_fixed (Str.trimEnd (Str.trimStart s)))
    by (apply trimEnd_startsClean, trimStart_startsClean).
  apply trimEnd_idempotent.
Qed.

Lemma hasChar_trimStart (c : ascii) (s : string) :
  hasChar c s = false -> hasChar c (Str.trimStart s) = false.
Proof.
  induction s as [|a s IH]; [reflexivity|].
  cbn [hasChar Str.trimStart]. intros H. apply orb_false_elim in H as [Ha Hs].
  destruct (Str.isWhiteSpace a); [now apply IH|]. cbn [hasChar]. now rewrite Ha, Hs.
Qed.

Lemma hasChar_trimEnd (c : ascii) (s : string) :
  hasChar c s = false -> hasChar c (Str.trimEnd s) = false.
Proof.
  induction s as [|a s IH]; [reflexivity|].
  cbn [hasChar Str.trimEnd]. intros H. apply orb_false_elim in H as [Ha Hs].
  specialize (IH Hs). destruct (Str.trimEnd s) as [|b r].
  - destruct (Str.isWhiteSpace a); [reflexivity|]. cbn [hasChar]. now rewrite Ha.
  - cbn [hasChar] in *. now rewrite Ha, IH.
Qed.

Lemma hasChar_snoc (c : ascii) (s : string) (a : ascii) :
  hasChar c (Csv.snoc s a) = hasChar c s || Ascii.eqb a c.
Proof.
  unfold Csv.snoc. induction s as [|b s IH]; unfold_append; cbn [hasChar].
  - now rewrite orb_false_r.
  - rewrite IH. now rewrite orb_assoc.
Qed.

Lemma splitFrom_pieces (sep : ascii) (s cur : string) :
  hasChar sep cur = false ->
  forallb (fun piece => negb (hasChar sep piece)) (splitFrom sep s cur) = true.
Proof.
  revert cur. induction s as [|c s IH]; intros cur Hcur; cbn [splitFrom forallb].
  - now rewrite Hcur.
  - destruct (Ascii.eqb c sep) eqn:E; cbn [forallb].
    + rewrite Hcur. cbn [negb andb]. now apply IH.
    + apply IH. now rewrite hasChar_snoc, Hcur, E.
Qed.

(** X21. Whatever the setting of the tab list, every tab name that the
    configuration yields has text, has no white space around it and has
    no comma: empty pieces are dropped and the others are trimmed. *)
Theorem configTabs_are_clean (env : option string) :
  forallb cleanTab (configTabs env) = true.
Proof.
  unfold configTabs, split.
  pose proof (splitFrom_pieces "," (default defaultTabs env) "" eq_refl) as H.
  induction (splitFrom "," (default defaultTabs env) "") as [|piece l IH]; [reflexivity|].
  cbn [forallb] in H. apply andb_prop in H as [Hp Hl]. apply negb_true_iff in Hp.
  cbn [map List.filter]. destruct (Str.isEmpty (Str.trim piece)) eqn:E; cbn [negb].
  - now apply IH.
  - cbn [forallb]. rewrite (IH Hl), andb_true_r. unfold cleanTab.
    rewrite E, trim_idempotent, String.eqb_refl. cbn [negb andb].
    apply negb_true_iff. unfold Str.trim. now apply hasChar_trimEnd, hasChar_trimStart.
Qed.

Lemma StringToNumber_blank (s : string) :
  allChars Str.isWhiteSpace s = true -> StrNum.StringToNumber s = Num.zero.
Proof. intros H. unfold StrNum.StringToNumber. now rewrite (trim_white _ H). Qed.

(** X22. A capital setting that is not set, is blank, or does not convert
    to a finite number above zero makes the statistics use 10000; a
    setting that converts to a finite number above zero is used as it is. *)
Theorem configured_capital_falls_back_to_default (env : option string) :
  let supplied := configInitialCapital env in
  (env = None -> effectiveCapital supplied = Num.ofZ 10000)
  /\ (forall text, env = Some text -> allChars Str.isWhiteSpace text = true ->
        effectiveCapital supplied = Num.ofZ 10000)
  /\ (Num.isFinite supplied && Num.ltb Num.zero supplied = false ->
        effectiveCapital supplied = Num.ofZ 10000)
  /\ (Num.isFinite supplied && Num.ltb Num.zero supplied = true ->
        effectiveCapital supplied = supplied).
Proof.
  cbv zeta. repeat split.
  - intros ->. vm_compute. reflexivity.
  - intros text -> Hblank. unfold configInitialCapital.
    change (default "10000" (Some text)) with text.
    rewrite (StringToNumber_blank _ Hblank). vm_compute. reflexivity.
  - intros H. unfold effectiveCapital, defaultCapital. now rewrite H.
  - intros H. unfold effectiveCapital. now rewrite H.
Qed.

Lemma configured_capital_falls_back_to_default_witness :
  effectiveCapital (configInitialCapital None) = Num.ofZ 10000
  /\ effectiveCapital (configInitialCapital (Some "  ")) = Num.ofZ 10000
  /\ effectiveCapital (configInitialCapital (Some "ten thousand")) = Num.ofZ 10000
  /\ effectiveCapital (configInitialCapital (Some "-5")) = Num.ofZ 10000
  /\ effectiveCapital (configInitialCapital (Some "2.5e4")) = Num.ofZ 25000.
Proof.
  split; [apply (configured_capital_falls_back_to_default None); reflexivity|].
  split; [apply (configured_capital_falls_back_to_default (Some "  ") ) with (text := "  ");
          reflexivity|].
  split; [apply (configured_capital_falls_back_to_default (Some "ten thousand"));
          vm_compute; reflexivity|].
  split; [apply (configured_capital_falls_back_to_default (Some "-5"));
          vm_compute; reflexivity|].
  destruct (configured_capital_falls_back_to_default (Some "2.5e4")) as (_ & _ & _ & H).
  rewrite H; vm_compute; reflexivity.
Defined.

(** ** The sorting state of the page *)

(** X23. After a click on a column header the table is sorted by that
    column, and from then on every second click on the same header
    brings back the same state; the first click on a column sorts names
    upwards and every other column downwards. *)
Theorem toggleSort_clicks (st : SortState) (key : SortKey) :
  sortKey (toggleSort st key) = key
  /\ toggleSort (toggleSort (toggleSort st key) key) key = toggleSort st key
  /\ (sortKeyEqb (sortKey st) key = false ->
        sortDir (toggleSort st key) = match key with KeyName => Asc | _ => Desc end)
  /\ (sortKeyEqb (sortKey st) key = true ->
        sortDir (toggleSort st key) <> sortDir st
        /\ toggleSort (toggleSort st key) key = st).
Proof.
  destruct st as [k d]. destruct k, key, d; cbn; repeat split; intros; congruence.
Qed.

Lemma toggleSort_clicks_witness :
  toggleSort initialSortState KeyName = mkSortState KeyName Asc
  /\ toggleSort (toggleSort initialSortState KeyReturnPct) KeyReturnPct = initialSortState.
Proof.
  split.
  - destruct (toggleSort_clicks initialSortState KeyName) as (Hk & _ & Hd & _).
    specialize (Hd eq_refl). destruct (toggleSort initialSortState KeyName) as [k d].
    cbn in Hk, Hd. now subst.
  - now apply (toggleSort_clicks initialSortState KeyReturnPct).
Defined.

(** ** findHeaderRow reads the cells trimmed and lower-cased only *)

Lemma findHeaderRowFrom_normalized r (g g' : grid) (required : list string) :
  map (map normalize) g = map (map normalize) g' ->
  findHeaderRowFrom r g required = findHeaderRowFrom r g' required.
Proof.
  revert r g'. induction g as [|rr g IH]; intros r [|rr' g'] H; try discriminate; [reflexivity|].
  cbn [map] in H. injection H as Hrr Hg.
  cbn [findHeaderRowFrom]. rewrite Hrr, (IH (r + 1) g' Hg). reflexivity.
Qed.

(** X24. The case of the header cells and the white space around them
    never matter: two grids whose cells agree after trimming and
    lower-casing give the same header row and the same columns. *)
Theorem findHeaderRow_ignores_case_and_padding
    (g g' : grid) (requiredHeaders : list string) :
  map (map normalize) g = map (map normalize) g' ->
  findHeaderRow g requiredHeaders = findHeaderRow g' requiredHeaders.
Proof. intros H. unfold findHeaderRow. now apply findHeaderRowFrom_normalized. Qed.

Lemma findHeaderRow_ignores_case_and_padding_witness :
  findHeaderRow [["note"]; [" QUANTITY"; "Open Price "; "current price"; "Unrealized GAIN"]]
    openPositionHeaders
  = findHeaderRow [["Note"]; ["quantity"; "open price"; "current price"; "unrealized gain"]]
      openPositionHeaders.
Proof.
  apply findHeaderRow_ignores_case_and_padding. vm_compute. reflexivity.
Defined.

(** ** findCellAdjacentToLabel: only the first label counts *)

(** X26. Only the first cell that matches the label is looked at: when
    it is the last cell of its row there is no value, whatever the rows
    below hold, a second label with a number beside it included. *)
Theorem findCellAdjacentToLabel_label_at_row_end
    (label : string) (pre : grid) (cells : row) (cell : string) (post : grid) :
  noLabelInGrid label pre = true ->
  noLabelInRow label cells = true ->
  isLabel label cell = true ->
  findCellAdjacentToLabel (pre ++ (cells ++ [cell]) :: post) label = None.
Proof.
  intros Hpre Hcells Hcell.
  now rewrite (findCellAdjacentToLabel_first label pre cells cell [] post Hpre Hcells Hcell).
Qed.

Lemma findCellAdjacentToLabel_label_at_row_end_witness :
  findCellAdjacentToLabel
    ([["Summary"]] ++ (["x"] ++ ["Realized P/L:"]) :: [["Realized P/L:"; "2500"]])
    "realized p/l:" = None.
Proof.
  apply findCellAdjacentToLabel_label_at_row_end; vm_compute; reflexivity.
Defined.

(** ** parseNumber: texts that are no numbers *)

Section ForeignCharacters.

Variable p : ascii -> bool.

Lemma existsChar_app (a b : string) :
  existsChar p (a +:+ b) = existsChar p a || existsChar p b.
Proof.
  induction a as [|c a IH]; unfold_append; [reflexivity|].
  cbn [existsChar]. now rewrite IH, orb_assoc.
Qed.

Hypothesis p_not_white : forall c, p c = true -> Str.isWhiteSpace c = false.







End ForeignCharacters.























